(** * python-zcashlib: the typed RPC layer, the chain parameters and the
      error taxonomy

    A shallow embedding of [zcash/__init__.py], [bitcoin/__init__.py] and
    [zcash/rpc.py].  Python values are an inductive type, dictionaries are
    finite maps, exceptions are a result type, and the proxy's connection is
    threaded through a state-and-exception monad.  The collaborators that
    live in [zcash.core] and [zcash.wallet] are an interface ([Core]). *)

From stdpp Require Import gmap strings list fin_maps pretty.
From Stdlib Require Import ZArith Lia Ascii String.
From Stdlib.Strings Require Import Byte.

#[local] Set Warnings "-register-all".
#[local] Open Scope Z_scope.

(** ** Strings as Python uses them here *)

Module pystr.

(** [str.isspace] on the ASCII range. *)
Definition isspace (a : ascii) : bool :=
  match a with
  | "009" | "010" | "011" | "012" | "013"
  | "028" | "029" | "030" | "031" | " " => true
  | _ => false
  end%char.

Fixpoint lstrip (s : string) : string :=
  match s with
  | String a s' => if isspace a then lstrip s' else s
  | EmptyString => EmptyString
  end.

Definition rstrip (s : string) : string :=
  String.rev (lstrip (String.rev s)).

Definition strip (s : string) : string := rstrip (lstrip s).

(** [c in s] for a one-character [c]. *)
Fixpoint contains (c : ascii) (s : string) : bool :=
  match s with
  | EmptyString => false
  | String a s' => if Ascii.eqb a c then true else contains c s'
  end.

(** [s[:s.index(c)]] and [s.split(c, 1)] when [c] occurs in [s]. *)
Fixpoint split_once (c : ascii) (s : string) : option (string * string) :=
  match s with
  | EmptyString => None
  | String a s' =>
      if Ascii.eqb a c then Some (EmptyString, s')
      else match split_once c s' with
           | Some (l, r) => Some (String a l, r)
           | None => None
           end
  end.

Definition before (c : ascii) (s : string) : string :=
  match split_once c s with Some (l, _) => l | None => s end.

(** [s * n]. *)
Definition repeat (s : string) (n : Z) : string :=
  Z.iter n (String.append s) EmptyString.

(** The digits of an integer literal, single underscores allowed between
    digits. *)
Fixpoint digits (s : string) (acc : Z) (after_digit : bool) : option Z :=
  match s with
  | EmptyString => if after_digit then Some acc else None
  | String a s' =>
      match Ascii.is_nat a with
      | Some d => digits s' (10 * acc + Z.of_nat d) true
      | None =>
          if Ascii.eqb a "_" && after_digit then digits s' acc false
          else None
      end
  end.

(** [int(s)] for a string: surrounding white space, an optional sign,
    decimal digits. [None] is [ValueError]. *)
Definition to_int (s : string) : option Z :=
  match strip s with
  | String "-" s' => Z.opp <$> digits s' 0 false
  | String "+" s' => digits s' 0 false
  | s' => digits s' 0 false
  end.

End pystr.

(** ** [binascii] *)

Module binascii.

Definition hexval (a : ascii) : option N :=
  let n := N_of_ascii a in
  if (48 <=? n)%N && (n <=? 57)%N then Some (n - 48)%N
  else if (97 <=? n)%N && (n <=? 102)%N then Some (n - 87)%N
  else if (65 <=? n)%N && (n <=? 70)%N then Some (n - 55)%N
  else None.

Definition hexchar (n : N) : ascii :=
  if (n <? 10)%N then ascii_of_N (48 + n) else ascii_of_N (87 + n).

(** [binascii.unhexlify]: [None] is [binascii.Error] (odd length or a
    character that is no hexadecimal digit). *)
Fixpoint unhexlify (s : string) : option (list byte) :=
  match s with
  | EmptyString => Some []
  | String a (String b s') =>
      hi ← hexval a; lo ← hexval b;
      x ← Byte.of_N (16 * hi + lo);
      bs ← unhexlify s';
      Some (x :: bs)
  | String _ EmptyString => None
  end.

Fixpoint hexlify (bs : list byte) : string :=
  match bs with
  | [] => EmptyString
  | x :: bs' =>
      let n := Byte.to_N x in
      String (hexchar (n / 16)) (String (hexchar (n mod 16)) (hexlify bs'))
  end.

End binascii.

(** ** [decimal]: the arithmetic of [decimal.Decimal] under the default
       context *)

Module decimal.

(** A finite [Decimal]: [(-1)^_sign * _int * 10^_exp], [_int] being the
    coefficient (a string of digits in Python, its number here). *)
Record Decimal := mkDecimal { _sign : bool; _int : Z; _exp : Z }.

(** The fields of the context that multiplication looks at; rounding is
    ROUND_HALF_EVEN, clamp is 0 and Overflow is trapped, as in the default
    context. *)
Record Context := mkContext { prec : Z; Emin : Z; Emax : Z }.

Definition DefaultContext : Context :=
  {| prec := 28; Emin := -999999; Emax := 999999 |}.

Definition Etiny (c : Context) : Z := Emin c - prec c + 1.
Definition Etop (c : Context) : Z := Emax c - prec c + 1.

Fixpoint count_digits (fuel : nat) (c : Z) : Z :=
  match fuel with
  | O => 1
  | S f => if c <? 10 then 1 else 1 + count_digits f (c / 10)
  end.

(** [len(self._int)]: the number of decimal digits, 1 for zero. *)
Definition ndigits (c : Z) : Z := count_digits (Z.to_nat (Z.log2 c)) c.

(** [Decimal(n)] for an integer. *)
Definition of_int (n : Z) : Decimal :=
  {| _sign := n <? 0; _int := Z.abs n; _exp := 0 |}.

(** [Decimal(literal)] for a JSON number literal with a fraction or an
    exponent: the coefficient is the integer and fraction digits read as
    one number, the exponent is lowered by the number of fraction
    digits. No rounding takes place. *)
Definition of_literal (i : Decimal.int) (f : Decimal.uint) (e : Z) :
    Decimal :=
  let '(neg, u) := match i with
                   | Decimal.Pos u => (false, u)
                   | Decimal.Neg u => (true, u)
                   end in
  {| _sign := neg;
     _int := Z.of_uint (Decimal.app u f);
     _exp := e - Z.of_nat (Decimal.nb_digits f) |}.

(** [_round_half_even] for the coefficient [c] cut before its last [k]
    digits: 1 rounds up, 0 is exact, -1 rounds down. *)
Definition round_half_even (c k : Z) : Z :=
  let q := c / 10 ^ k in
  let r := c mod 10 ^ k in
  if (2 * r =? 10 ^ k) && Z.even q then -1
  else if 10 ^ k <=? 2 * r then 1
  else if r =? 0 then 0
  else -1.

(** [Decimal._fix]: round to the context's precision; [None] is the
    trapped Overflow signal. *)
Definition _fix (ctx : Context) (d : Decimal) : option Decimal :=
  if _int d =? 0 then
    let new_exp := Z.min (Z.max (_exp d) (Etiny ctx)) (Emax ctx) in
    Some {| _sign := _sign d; _int := 0; _exp := new_exp |}
  else
    let exp_min := ndigits (_int d) + _exp d - prec ctx in
    if Etop ctx <? exp_min then None
    else
      let exp_min := if exp_min <? Etiny ctx then Etiny ctx else exp_min in
      if _exp d <? exp_min then
        let digits := ndigits (_int d) + _exp d - exp_min in
        let '(c, digits) :=
          if digits <? 0 then (1, 0) else (_int d, digits) in
        let k := ndigits c - digits in
        let changed := round_half_even c k in
        let coeff := c / 10 ^ k in
        let '(coeff, exp_min) :=
          if 0 <? changed then
            let coeff := coeff + 1 in
            if prec ctx <? ndigits coeff then (coeff / 10, exp_min + 1)
            else (coeff, exp_min)
          else (coeff, exp_min) in
        if Etop ctx <? exp_min then None
        else Some {| _sign := _sign d; _int := coeff; _exp := exp_min |}
      else Some d.

(** [Decimal.__mul__] on finite operands. The source treats a zero
    operand and a coefficient of 1 apart, with the same triple as
    result. *)
Definition mul (ctx : Context) (a b : Decimal) : option Decimal :=
  _fix ctx {| _sign := xorb (_sign a) (_sign b);
              _int := _int a * _int b;
              _exp := _exp a + _exp b |}.

(** [Decimal.__int__]: truncation towards zero. *)
Definition to_int (d : Decimal) : Z :=
  let s := if _sign d then -1 else 1 in
  if 0 <=? _exp d then s * _int d * 10 ^ _exp d
  else s * (_int d / 10 ^ (- _exp d)).

(** The integer a [Decimal] is numerically equal to, if any (what a
    dictionary with integer keys finds it under). *)
Definition as_integer (d : Decimal) : option Z :=
  let s := if _sign d then -1 else 1 in
  if 0 <=? _exp d then Some (s * _int d * 10 ^ _exp d)
  else if _int d mod 10 ^ (- _exp d) =? 0
       then Some (s * (_int d / 10 ^ (- _exp d)))
       else None.

End decimal.

(** ** Python values *)

(** The floats that [json.loads] still produces when [parse_float] is
    [decimal.Decimal]: the constants NaN, Infinity and -Infinity. *)
Inductive float_const := FNaN | FInf (neg : bool).

(** The values the RPC layer handles: what [json.loads] returns, byte
    strings, and the objects of [zcash.core] and [zcash.wallet], each
    identified by the constructor call that made it ([VObject "CTxOut"
    [amount; script]] is [CTxOut(amount, script)]). [VProxy] is the proxy
    instance a method is called on, [VGlobal] an object bound at module
    level. *)
Inductive value :=
| VNone
| VBool (b : bool)
| VInt (z : Z)
| VDecimal (d : decimal.Decimal)
| VFloat (c : float_const)
| VStr (s : string)
| VList (l : list value)
| VDict (m : gmap string value)
| VBytes (b : list byte)
| VObject (cls : string) (args : list value)
| VProxy
| VGlobal (name : string).

(** ** Exceptions and results *)

(** The classes of the error taxonomy of [zcash/rpc.py]. *)
Inductive rpc_class :=
| JSONRPCError
| ForbiddenBySafeModeError
| InvalidAddressOrKeyError
| InvalidParameterError
| VerifyError
| VerifyRejectedError
| VerifyAlreadyInChainError
| InWarmupError.

#[global] Instance rpc_class_eq_dec : EqDecision rpc_class.
Proof. solve_decision. Defined.

(** Python exceptions. An RPC error is its class and its [error]
    attribute; the messages of the other exceptions are left out, but for
    the key of a [KeyError] and the name of a [NameError]. [DecimalOverflow]
    is [decimal.Overflow], [BinasciiError] is [binascii.Error], and
    [CollaboratorError] whatever a constructor of [zcash.core] or
    [zcash.wallet] raises. *)
Inductive exn :=
| KeyError (key : string)
| TypeError
| ValueError
| IndexError
| NameError (name : string)
| AttributeError
| AssertionError
| OverflowError
| DecimalOverflow
| BinasciiError
| IOError
| CollaboratorError
| RPCError (cls : rpc_class) (error : value).

Inductive result (A : Type) :=
| Ok (a : A)
| Raise (e : exn).
Arguments Ok {A}. Arguments Raise {A}.

Definition result_bind {A B} (r : result A) (k : A → result B) : result B :=
  match r with Ok a => k a | Raise e => Raise e end.

#[global] Instance result_ret : MRet result := λ A a, Ok a.
#[global] Instance result_mbind : MBind result := λ A B k r, result_bind r k.

(** A sequence of fallible steps, left to right, stopping at the first
    exception. *)
Fixpoint mapR {A B} (f : A → result B) (l : list A) : result (list B) :=
  match l with
  | [] => Ok []
  | a :: l' =>
      match f a with
      | Raise e => Raise e
      | Ok b => match mapR f l' with
                | Raise e => Raise e
                | Ok bs => Ok (b :: bs)
                end
      end
  end.

(** JSON text after lexing: number literals keep their digits, objects
    their pairs in order. *)
Inductive wire :=
| WNull
| WTrue
| WFalse
| WNumber (n : Decimal.decimal)
| WNaN
| WInfinity (neg : bool)
| WString (s : string)
| WArray (l : list wire)
| WObject (kvs : list (string * wire)).

(** A number literal: [parse_int] when it has neither fraction nor
    exponent, [parse_float], which is [decimal.Decimal], otherwise. *)
Definition loads_number (n : Decimal.decimal) : value :=
  match n with
  | Decimal.Decimal i Decimal.Nil => VInt (Z.of_int i)
  | Decimal.Decimal i f => VDecimal (decimal.of_literal i f 0)
  | Decimal.DecimalExp i f e => VDecimal (decimal.of_literal i f (Z.of_int e))
  end.

(** [json.loads(text, parse_float=decimal.Decimal)]; of a repeated key the
    last pair stays. *)
Fixpoint loads (w : wire) : value :=
  match w with
  | WNull => VNone
  | WTrue => VBool true
  | WFalse => VBool false
  | WNumber n => loads_number n
  | WNaN => VFloat FNaN
  | WInfinity neg => VFloat (FInf neg)
  | WString s => VStr s
  | WArray l => VList (map loads l)
  | WObject kvs =>
      VDict (foldl (λ m kv, match kv with (k, v) => <[k := loads v]> m end)
                   ∅ kvs)
  end.

(** *** Subscripts *)

(** [v[k]] for a string [k]. *)
Definition getitem (v : value) (k : string) : result value :=
  match v with
  | VDict m =>
      match m !! k with Some x => Ok x | None => Raise (KeyError k) end
  | _ => Raise TypeError
  end.

(** [v[k] = x]. *)
Definition setitem (v : value) (k : string) (x : value) : result value :=
  match v with
  | VDict m => Ok (VDict (<[k := x]> m))
  | _ => Raise TypeError
  end.

(** [del v[k]]. *)
Definition delitem (v : value) (k : string) : result value :=
  match v with
  | VDict m => match m !! k with
               | Some _ => Ok (VDict (delete k m))
               | None => Raise (KeyError k)
               end
  | _ => Raise TypeError
  end.

(** [k in v] for a dictionary; the call sites reach it with nothing else. *)
Definition contains (v : value) (k : string) : result bool :=
  match v with
  | VDict m => Ok (bool_decide (is_Some (m !! k)))
  | _ => Raise TypeError
  end.

(** [for x in v]: the items a loop over [v] visits. A dictionary yields its
    keys, a string its characters. *)
Definition iter (v : value) : result (list value) :=
  match v with
  | VList l => Ok l
  | VDict m => Ok (VStr <$> (map_to_list m).*1)
  | VStr s =>
      Ok ((λ a, VStr (String a EmptyString)) <$> list_ascii_of_string s)
  | VBytes b => Ok ((λ x, VInt (Z.of_N (Byte.to_N x))) <$> b)
  | _ => Raise TypeError
  end.

(** *** Arithmetic on amounts *)

(** [v * n] for an integer [n]. *)
Definition mul_int (v : value) (n : Z) : result value :=
  match v with
  | VInt z => Ok (VInt (z * n))
  | VBool b => Ok (VInt ((if b then 1 else 0) * n))
  | VDecimal d =>
      match decimal.mul decimal.DefaultContext d (decimal.of_int n) with
      | Some p => Ok (VDecimal p)
      | None => Raise DecimalOverflow
      end
  | VFloat FNaN => Ok (VFloat FNaN)
  | VFloat (FInf neg) =>
      Ok (VFloat (if n =? 0 then FNaN else FInf (xorb neg (n <? 0))))
  | VStr s => Ok (VStr (pystr.repeat s n))
  | VList l => Ok (VList (Z.iter n (app l) []))
  | VBytes b => Ok (VBytes (Z.iter n (app b) []))
  | _ => Raise TypeError
  end.

(** [int(v)]. *)
Definition to_int (v : value) : result Z :=
  match v with
  | VInt z => Ok z
  | VBool b => Ok (if b then 1 else 0)
  | VDecimal d => Ok (decimal.to_int d)
  | VFloat FNaN => Raise ValueError
  | VFloat (FInf _) => Raise OverflowError
  | VStr s => match pystr.to_int s with
              | Some z => Ok z
              | None => Raise ValueError
              end
  | _ => Raise TypeError
  end.

(** [int(v * COIN)], the conversion of a wire amount. *)
Definition to_smallest_unit (coin : Z) (v : value) : result Z :=
  p ← mul_int v coin; to_int p.

(** The integer key a value is found under in a dictionary with integer
    keys: equal numbers hash alike, lists and dictionaries cannot be
    hashed. *)
Definition int_key (v : value) : result (option Z) :=
  match v with
  | VInt z => Ok (Some z)
  | VBool b => Ok (Some (if b then 1 else 0))
  | VDecimal d => Ok (decimal.as_integer d)
  | VList _ | VDict _ => Raise TypeError
  | _ => Ok None
  end.

(** ** The collaborators in [zcash.core] and [zcash.wallet] *)

(** What the RPC layer needs from the modules it imports: the scale factor
    [COIN], which constructor calls and decoders raise instead of returning
    ([accepts "CTxOut" args] says that [CTxOut(args)] returns), and [str] of
    their objects. *)
Class Core := {
  COIN : Z;
  accepts : string → list value → bool;
  str_of : value → string;
}.

(** [cls(args)], a constructor or decoder of a collaborator. *)
Definition construct `{Core} (cls : string) (args : list value) :
    result value :=
  if accepts cls args then Ok (VObject cls args) else Raise CollaboratorError.

(** [unhexlify(h)] of [zcash/rpc.py], the Python 3 branch:
    [binascii.unhexlify(h.encode('utf8'))]. *)
Definition unhexlify (h : value) : result (list byte) :=
  match h with
  | VStr s => match binascii.unhexlify s with
              | Some b => Ok b
              | None => Raise BinasciiError
              end
  | _ => Raise AttributeError
  end.

(** [hexlify(b)] of [zcash/rpc.py]. *)
Definition hexlify (b : list byte) : string := binascii.hexlify b.

(** Modelled from the spec: [lx] of [zcash.core], which is not among the
    sources. The spec has the byte order of identifiers "reversed to the
    wire's display order", with "hex⇄bytes and big/little-endian byte-order
    conversion utilities": [lx] decodes hexadecimal and reverses. *)
Definition lx (h : value) : result (list byte) :=
  b ← unhexlify h; Ok (rev b).

(** Modelled from the spec: [b2lx] of [zcash.core], the inverse direction
    of [lx]: reverse, then encode as hexadecimal. *)
Definition b2lx (b : list byte) : string := hexlify (rev b).

(** ** Chain parameters: [zcash/__init__.py] and [bitcoin/__init__.py] *)

(** An entry of [DNS_SEEDS]: a pair of strings, or a bare string where the
    source wrote a parenthesised pair without the trailing comma. *)
Inductive seed :=
| SeedPair (name host : string)
| SeedStr (s : string).

(** An instance of a parameter class: the class and the attributes the
    class body sets. Those inherited from the core classes are not among
    the sources. *)
Record ChainParams := {
  class_name : string;
  MESSAGE_START : list byte;
  DEFAULT_PORT : Z;
  RPC_PORT : Z;
  DNS_SEEDS : list seed;
  BASE58_PREFIXES : gmap string value;
}.

(** The core module next to a parameter module ([zcash.core],
    [bitcoin.core]): its [coreparams] global holds an object of its own
    ([core_obj]) or a [ChainParams] instance, and [_SelectCoreParams(name)]
    returns or raises, leaving a value in that global. *)
Class CoreModule := {
  core_obj : Type;
  _SelectCoreParams :
    string → ChainParams + core_obj →
    result unit * (ChainParams + core_obj);
}.

(** The two globals [SelectParams] writes. *)
Record globals `{CoreModule} := {
  params : ChainParams;
  coreparams : ChainParams + core_obj;
}.

Module zcash.

Definition MainParams : ChainParams := {|
  class_name := "MainParams";
  MESSAGE_START := [x24; xe9; x27; x64];
  DEFAULT_PORT := 8233;
  RPC_PORT := 8232;
  DNS_SEEDS := [SeedPair "z.cash" "dnsseed.z.cash";
                SeedPair "str4d.xyz" "dnsseed.str4d.xyz";
                SeedPair "znodes.org" "dnsseed.znodes.org"];
  BASE58_PREFIXES := <["PUBKEY_ADDR" := VBytes [x1c; xb8]]>
                    (<["SCRIPT_ADDR" := VBytes [x1c; xbd]]>
                    (<["SECRET_KEY" := VInt 128]> ∅));
|}.

Definition TestNetParams : ChainParams := {|
  class_name := "TestNetParams";
  MESSAGE_START := [xfa; x1a; xf9; xbf];
  DEFAULT_PORT := 18233;
  RPC_PORT := 18232;
  DNS_SEEDS := [SeedStr "z.cash"; SeedStr "dnsseed.testnet.z.cash"];
  BASE58_PREFIXES := <["PUBKEY_ADDR" := VBytes [x1d; x25]]>
                    (<["SCRIPT_ADDR" := VBytes [x1c; xba]]>
                    (<["SECRET_KEY" := VInt 239]> ∅));
|}.

Definition RegTestParams : ChainParams := {|
  class_name := "RegTestParams";
  MESSAGE_START := [xaa; xea; x3f; x5f];
  DEFAULT_PORT := 18444;
  RPC_PORT := 18232;
  DNS_SEEDS := [];
  BASE58_PREFIXES := <["PUBKEY_ADDR" := VBytes [x1d; x25]]>
                    (<["SCRIPT_ADDR" := VBytes [x1c; xba]]>
                    (<["SECRET_KEY" := VInt 239]> ∅));
|}.

(** The globals after the module is imported: [params = MainParams()];
    what [zcash.core.coreparams] holds is the core module's business. *)
Definition initial `{CoreModule} (c : ChainParams + core_obj) : globals :=
  {| params := MainParams; coreparams := c |}.

(** [SelectParams(name)]: the outcome and the globals afterwards. *)
Definition SelectParams `{CoreModule} (name : string) (g : globals) :
    result unit * globals :=
  let '(r, c) := _SelectCoreParams name (coreparams g) in
  match r with
  | Raise e => (Raise e, {| params := params g; coreparams := c |})
  | Ok _ =>
      if String.eqb name "mainnet" then
        (Ok (), {| params := MainParams; coreparams := inl MainParams |})
      else if String.eqb name "testnet" then
        (Ok (), {| params := TestNetParams;
                   coreparams := inl TestNetParams |})
      else if String.eqb name "regtest" then
        (Ok (), {| params := RegTestParams;
                   coreparams := inl RegTestParams |})
      else (Raise ValueError, {| params := params g; coreparams := c |})
  end.

End zcash.

Module bitcoin.

Definition MainParams : ChainParams := {|
  class_name := "MainParams";
  MESSAGE_START := [x24; xe9; x27; x64];
  DEFAULT_PORT := 8233;
  RPC_PORT := 8232;
  DNS_SEEDS := [SeedPair "z.cash" "dnsseed.z.cash";
                SeedPair "str4d.xyz" "dnsseed.str4d.xyz";
                SeedPair "znodes.org" "dnsseed.znodes.org"];
  BASE58_PREFIXES := <["PUBKEY_ADDR" := VBytes [x1c; xb8]]>
                    (<["SCRIPT_ADDR" := VBytes [x1c; xbd]]>
                    (<["SECRET_KEY" := VInt 128]> ∅));
|}.

Definition TestNetParams : ChainParams := {|
  class_name := "TestNetParams";
  MESSAGE_START := [xfa; x1a; xf9; xbf];
  DEFAULT_PORT := 18233;
  RPC_PORT := 18232;
  DNS_SEEDS := [SeedStr "z.cash"; SeedStr "dnsseed.testnet.z.cash"];
  BASE58_PREFIXES := <["PUBKEY_ADDR" := VBytes [x1d; x25]]>
                    (<["SCRIPT_ADDR" := VBytes [x1c; xba]]>
                    (<["SECRET_KEY" := VInt 239]> ∅));
|}.

(** Here the regtest prefixes are integers, not byte strings. *)
Definition RegTestParams : ChainParams := {|
  class_name := "RegTestParams";
  MESSAGE_START := [xaa; xea; x3f; x5f];
  DEFAULT_PORT := 18444;
  RPC_PORT := 18232;
  DNS_SEEDS := [];
  BASE58_PREFIXES := <["PUBKEY_ADDR" := VInt 7461]>
                    (<["SCRIPT_ADDR" := VInt 7354]>
                    (<["SECRET_KEY" := VInt 239]> ∅));
|}.

Definition initial `{CoreModule} (c : ChainParams + core_obj) : globals :=
  {| params := MainParams; coreparams := c |}.

(** [SelectParams(name)], the same statements over [bitcoin.core]. *)
Definition SelectParams `{CoreModule} (name : string) (g : globals) :
    result unit * globals :=
  let '(r, c) := _SelectCoreParams name (coreparams g) in
  match r with
  | Raise e => (Raise e, {| params := params g; coreparams := c |})
  | Ok _ =>
      if String.eqb name "mainnet" then
        (Ok (), {| params := MainParams; coreparams := inl MainParams |})
      else if String.eqb name "testnet" then
        (Ok (), {| params := TestNetParams;
                   coreparams := inl TestNetParams |})
      else if String.eqb name "regtest" then
        (Ok (), {| params := RegTestParams;
                   coreparams := inl RegTestParams |})
      else (Raise ValueError, {| params := params g; coreparams := c |})
  end.

End bitcoin.

(** ** The error taxonomy of [zcash/rpc.py] *)

(** The class attribute [RPC_ERROR_CODE]; the base class has none. *)
Definition RPC_ERROR_CODE (c : rpc_class) : option Z :=
  match c with
  | JSONRPCError => None
  | ForbiddenBySafeModeError => Some (-2)
  | InvalidAddressOrKeyError => Some (-5)
  | InvalidParameterError => Some (-8)
  | VerifyError => Some (-25)
  | VerifyRejectedError => Some (-26)
  | VerifyAlreadyInChainError => Some (-27)
  | InWarmupError => Some (-28)
  end.

(** [JSONRPCError._register_subcls], the class decorator: it writes the
    subclass into the table under its code. *)
Definition _register_subcls (tbl : gmap Z rpc_class) (subcls : rpc_class) :
    gmap Z rpc_class :=
  match RPC_ERROR_CODE subcls with
  | Some code => <[code := subcls]> tbl
  | None => tbl
  end.

(** [JSONRPCError.SUBCLS_BY_CODE] once the module is loaded: the empty
    table after the seven decorated class statements, in source order. *)
Definition SUBCLS_BY_CODE : gmap Z rpc_class :=
  foldl _register_subcls ∅
    [ForbiddenBySafeModeError; InvalidAddressOrKeyError;
     InvalidParameterError; VerifyError; VerifyRejectedError;
     VerifyAlreadyInChainError; InWarmupError].

(** [SUBCLS_BY_CODE.get(code, cls)]. *)
Definition subcls_get (code : value) (cls : rpc_class) : result rpc_class :=
  key ← int_key code;
  Ok (match key with
      | Some k => default cls (SUBCLS_BY_CODE !! k)
      | None => cls
      end).

(** [JSONRPCError.__new__(cls, rpc_error)]: the exception object, which is
    its class and its [error] attribute. The message text it formats from
    [rpc_error['message']] and [rpc_error['code']] is not kept, the two
    lookups are. *)
Definition JSONRPCError_new (cls : rpc_class) (rpc_error : value) :
    result exn :=
  if bool_decide (cls = JSONRPCError) then
    code ← getitem rpc_error "code";
    cls' ← subcls_get code cls;
    _ ← getitem rpc_error "message";
    _ ← getitem rpc_error "code";
    Ok (RPCError cls' rpc_error)
  else Raise AssertionError.

(** [raise JSONRPCError(rpc_error)]. *)
Definition raise_JSONRPCError {A} (rpc_error : value) : result A :=
  match JSONRPCError_new JSONRPCError rpc_error with
  | Ok e => Raise e
  | Raise e => Raise e
  end.

(** The dictionary literal [{'code': c, 'message': m}]. *)
Definition error_dict (c : Z) (m : string) : value :=
  VDict (<["code" := VInt c]> (<["message" := VStr m]> ∅)).

(** ** [BaseProxy]: the transport session *)

(** What [_call] hands to [json.dumps]. *)
Record request := {
  method : string;
  req_params : list value;
  req_id : Z;
}.

(** What [getresponse()] gives for one request: nothing, a body that is
    JSON, or a body that is not. *)
Inductive http_response :=
| NoResponse
| Body (w : wire)
| Garbled.

(** The connection: the requests posted so far, and the node's replies to
    come, in order. *)
Record HTTPConnection := {
  sent : list request;
  pending : list http_response;
}.

(** The private attributes of a proxy. *)
Record BaseProxy := {
  __service_url : string;
  __id_count : Z;
  __conn : HTTPConnection;
}.

(** Methods of the proxy: they read and write its attributes and return or
    raise. *)
Definition M (A : Type) : Type := BaseProxy → result A * BaseProxy.

#[global] Instance M_ret : MRet M := λ A a p, (Ok a, p).
#[global] Instance M_bind : MBind M := λ A B k m p,
  match m p with
  | (Ok a, p') => k a p'
  | (Raise e, p') => (Raise e, p')
  end.

Definition lift {A} (r : result A) : M A := λ p, (r, p).

(** [try: m except cls as ex: raise e']. *)
Definition except_rpc {A} (m : M A) (cls : rpc_class) (e' : exn) : M A :=
  λ p, match m p with
       | (Raise (RPCError c err), p') =>
           if bool_decide (c = cls) then (Raise e', p')
           else (Raise (RPCError c err), p')
       | other => other
       end.

(** Whether [json.dumps] encodes a value; it raises [TypeError] on the
    others. *)
Fixpoint serializable (v : value) : bool :=
  match v with
  | VNone | VBool _ | VInt _ | VStr _ | VFloat _ => true
  | VList l => forallb serializable l
  | VDict m => map_fold (λ _ b acc, b && acc) true (serializable <$> m)
  | _ => false
  end.

(** *** Construction *)

(** One turn of the loop over the lines of [zcash.conf]. *)
Definition conf_line (conf : gmap string value) (line : string) :
    gmap string value :=
  let line := if pystr.contains "#" line then pystr.before "#" line
              else line in
  match pystr.split_once "=" line with
  | None => conf
  | Some (k, v) => <[pystr.strip k := VStr (pystr.strip v)]> conf
  end.

(** ['%s' % v] for the values a configuration holds: strings from the
    file, and the integer port. *)
Definition percent_s (v : value) : string :=
  match v with
  | VStr s => s
  | VInt z => pretty z
  | _ => EmptyString
  end.

(** The [with open(...)] block of [BaseProxy.__init__]: the configuration
    as it stands when the URL is formatted. [service_port] is the
    constructor's argument and [active] the module global [zcash.params]. *)
Definition read_conf (service_port : option Z) (active : ChainParams)
    (lines : list string) : result (gmap string value) :=
  (* service_port = 18232, before the file is looked at *)
  let service_port : option Z := Some 18232 in
  let conf := foldl conf_line (<["rpcuser" := VStr EmptyString]> ∅) lines in
  let service_port := match service_port with
                      | None => RPC_PORT active
                      | Some p => p
                      end in
  rpcport ← to_int (default (VInt service_port) (conf !! "rpcport"));
  let conf := <["rpcport" := VInt rpcport]> conf in
  let conf := <["rpchost" :=
                default (VStr "localhost") (conf !! "rpcconnect")]> conf in
  match conf !! "rpcpassword" with
  | None => Raise ValueError
  | Some _ => Ok conf
  end.

(** ['%s://%s:%s@%s:%d' % ('http', rpcuser, rpcpassword, rpchost,
    rpcport)]. *)
Definition format_url (conf : gmap string value) : result string :=
  user ← getitem (VDict conf) "rpcuser";
  password ← getitem (VDict conf) "rpcpassword";
  host ← getitem (VDict conf) "rpchost";
  port ← getitem (VDict conf) "rpcport";
  port ← to_int port;
  Ok ("http://" +:+ percent_s user +:+ ":" +:+ percent_s password
      +:+ "@" +:+ percent_s host +:+ ":" +:+ pretty port).

(** [BaseProxy.__init__] up to [self.__service_url = service_url].
    [conf_file] is what opening and reading the configuration file gives
    (its path depends on the platform and is not modelled). What follows in
    the source parses the URL, refuses a scheme other than http and opens
    the connection; that part is left out. *)
Definition BaseProxy_service_url (service_url : option string)
    (service_port : option Z) (conf_file : result (list string))
    (active : ChainParams) : result string :=
  match service_url with
  | Some u => Ok u
  | None =>
      lines ← conf_file;
      conf ← read_conf service_port active lines;
      format_url conf
  end.

(** *** Calls *)

(** [_get_response]. *)
Definition _get_response : M value := λ p,
  match pending (__conn p) with
  | [] => (Raise IOError, p)
  | r :: rest =>
      let p' := {| __service_url := __service_url p;
                   __id_count := __id_count p;
                   __conn := {| sent := sent (__conn p);
                                pending := rest |} |} in
      match r with
      | NoResponse =>
          (raise_JSONRPCError
             (error_dict (-342) "missing HTTP response from server"), p')
      | Garbled => (Raise ValueError, p')
      | Body w => (Ok (loads w), p')
      end
  end.

(** [self.__id_count += 1]. *)
Definition next_id : M Z := λ p,
  let n := __id_count p + 1 in
  (Ok n, {| __service_url := __service_url p; __id_count := n;
            __conn := __conn p |}).

(** [json.dumps] of the request, then [self.__conn.request('POST', ...)]. *)
Definition post (rq : request) : M unit := λ p,
  if forallb serializable (req_params rq) then
    (Ok (), {| __service_url := __service_url p;
               __id_count := __id_count p;
               __conn := {| sent := sent (__conn p) ++ [rq];
                            pending := pending (__conn p) |} |})
  else (Raise TypeError, p).

(** What [_call] does with the decoded response. *)
Definition check_response (response : value) : result value :=
  err ← getitem response "error";
  match err with
  | VNone =>
      has ← contains response "result";
      if has : bool then getitem response "result"
      else raise_JSONRPCError (error_dict (-343) "missing JSON-RPC result")
  | _ => raise_JSONRPCError err
  end.

(** [_call(service_name, *args)]. *)
Definition _call (service_name : string) (args : list value) : M value :=
  n ← next_id;
  _ ← post {| method := service_name; req_params := args; req_id := n |};
  response ← _get_response;
  lift (check_response response).

(** ** [Proxy]: the typed operations *)

(** An outpoint as the caller passes it: [outpoint.hash], [outpoint.n]. *)
Record outpoint := { op_hash : list byte; op_n : Z }.

Section Proxy.
Context `{Core}.

(** [call(service_name, *args)]. *)
Definition call (service_name : string) (args : list value) : M value :=
  _call service_name args.

(** What [getrawtransaction] does with the node's reply. *)
Definition getrawtransaction_decode (verbose : bool) (r : value) :
    result value :=
  if verbose then
    h ← getitem r "hex";
    b ← unhexlify h;
    tx ← construct "CTransaction.deserialize" [VBytes b];
    r ← setitem r "tx" tx;
    (* the statement [r['hex']] *)
    _ ← getitem r "hex";
    r ← delitem r "txid";
    r ← delitem r "version";
    r ← delitem r "locktime";
    r ← delitem r "vin";
    r ← delitem r "vout";
    has ← contains r "blockhash";
    bh ← (if has : bool then
            h ← getitem r "blockhash"; l ← lx h; Ok (VBytes l)
          else Ok VNone);
    setitem r "blockhash" bh
  else
    b ← unhexlify r;
    construct "CTransaction.deserialize" [VBytes b].

(** [getrawtransaction(txid, verbose)]. *)
Definition getrawtransaction (txid : list byte) (verbose : bool) :
    M value :=
  r ← except_rpc
        (_call "getrawtransaction"
               [VStr (b2lx txid); VInt (if verbose then 1 else 0)])
        InvalidAddressOrKeyError IndexError;
  lift (getrawtransaction_decode verbose r).

(** What [gettxout] does with a reply that is not [None]. *)
Definition gettxout_decode (r : value) : result value :=
  v ← getitem r "value";
  amount ← to_smallest_unit COIN v;
  spk ← getitem r "scriptPubKey";
  h ← getitem spk "hex";
  b ← unhexlify h;
  script ← construct "CScript" [VBytes b];
  txout ← construct "CTxOut" [VInt amount; script];
  r ← setitem r "txout" txout;
  r ← delitem r "value";
  r ← delitem r "scriptPubKey";
  bb ← getitem r "bestblock";
  l ← lx bb;
  setitem r "bestblock" (VBytes l).

(** [gettxout(outpoint, includemempool)]. *)
Definition gettxout (o : outpoint) (includemempool : bool) : M value :=
  r ← _call "gettxout"
            [VStr (b2lx (op_hash o)); VInt (op_n o); VBool includemempool];
  lift (match r with
        | VNone => Raise IndexError
        | _ => gettxout_decode r
        end).

(** The body of the loop of [listunspent]. *)
Definition listunspent_entry (unspent : value) : result value :=
  txid ← getitem unspent "txid";
  h ← lx txid;
  vout ← getitem unspent "vout";
  o ← construct "COutPoint" [VBytes h; vout];
  unspent ← setitem unspent "outpoint" o;
  a ← getitem unspent "address";
  addr ← construct "CBitcoinAddress" [a];
  unspent ← setitem unspent "address" addr;
  s ← getitem unspent "scriptPubKey";
  b ← unhexlify s;
  script ← construct "CScript" [VBytes b];
  unspent ← setitem unspent "scriptPubKey" script;
  v ← getitem unspent "amount";
  amount ← to_smallest_unit COIN v;
  setitem unspent "amount" (VInt amount).

(** The call [listunspent] makes: without the address filter when
    [addrs] is [None], with [str] of each address otherwise. *)
Definition listunspent_request (minconf maxconf : Z)
    (addrs : option (list value)) : M value :=
  match addrs with
  | None => _call "listunspent" [VInt minconf; VInt maxconf]
  | Some addrs =>
      _call "listunspent"
            [VInt minconf; VInt maxconf;
             VList ((λ a, VStr (str_of a)) <$> addrs)]
  end.

(** [listunspent(minconf, maxconf, addrs)]. *)
Definition listunspent (minconf maxconf : Z) (addrs : option (list value)) :
    M value :=
  r ← listunspent_request minconf maxconf addrs;
  lift (items ← iter r;
        r2 ← mapR listunspent_entry items;
        Ok (VList r2)).

(** [sendtoaddress] and [sendmany] turn an integer amount into
    [float(amount)/COIN], a binary floating-point division; they are
    outside this model. *)

(** *** The z-address operations *)

(** A [def] inside the class: its parameters, the default values of the
    last ones, and its body run on the local variables. *)
Record funcdef := {
  f_params : list string;
  f_defaults : list value;
  f_body : gmap string value → M value;
}.

(** Binding of keyword arguments: a name that is no parameter, or one
    bound already, is a [TypeError]. *)
Fixpoint bind_keywords (ps : list string) (kw : list (string * value))
    (locals : gmap string value) : result (gmap string value) :=
  match kw with
  | [] => Ok locals
  | (k, v) :: kw' =>
      if bool_decide (k ∈ ps) && bool_decide (locals !! k = None)
      then bind_keywords ps kw' (<[k := v]> locals)
      else Raise TypeError
  end.

(** Parameters still unbound take their default; one without default is a
    [TypeError]. [required] counts the parameters before the first
    default. *)
Fixpoint bind_defaults (ps : list string) (required : nat)
    (defaults : list value) (locals : gmap string value) :
    result (gmap string value) :=
  match ps with
  | [] => Ok locals
  | p :: ps' =>
      match required with
      | S n =>
          match locals !! p with
          | Some _ => bind_defaults ps' n defaults locals
          | None => Raise TypeError
          end
      | O =>
          match defaults with
          | d :: ds =>
              bind_defaults ps' O ds
                (match locals !! p with
                 | Some _ => locals
                 | None => <[p := d]> locals
                 end)
          | [] => Raise TypeError
          end
      end
  end.

(** The local variables of a call with positional arguments [pos] and
    keyword arguments [kw]. *)
Definition bind_args (f : funcdef) (pos : list value)
    (kw : list (string * value)) : result (gmap string value) :=
  if (List.length (f_params f) <? List.length pos)%nat then Raise TypeError
  else
    locals ← bind_keywords (f_params f) kw
               (list_to_map (zip (f_params f) pos));
    bind_defaults (f_params f)
      (List.length (f_params f) - List.length (f_defaults f))%nat
      (f_defaults f) locals.

(** The names bound at the top level of [zcash/rpc.py]. *)
Definition module_globals : list string :=
  ["absolute_import"; "division"; "print_function"; "unicode_literals";
   "ssl"; "httplib"; "base64"; "binascii"; "decimal"; "json"; "os";
   "platform"; "sys"; "urlparse"; "zcash"; "COIN"; "x"; "lx"; "b2lx";
   "CBlock"; "CBlockHeader"; "CTransaction"; "COutPoint"; "CTxOut";
   "CScript"; "CBitcoinAddress"; "CBitcoinSecret"; "DEFAULT_USER_AGENT";
   "DEFAULT_HTTP_TIMEOUT"; "unhexlify"; "hexlify"; "JSONRPCError";
   "ForbiddenBySafeModeError"; "InvalidAddressOrKeyError";
   "InvalidParameterError"; "VerifyError"; "VerifyRejectedError";
   "VerifyAlreadyInChainError"; "InWarmupError"; "BaseProxy"; "RawProxy";
   "Proxy"; "__all__"; "__name__"; "__doc__"; "__file__"; "__package__";
   "__builtins__"].

(** The built-in functions and constants of Python. *)
Definition builtins : list string :=
  ["abs"; "all"; "any"; "ascii"; "bin"; "bool"; "breakpoint";
   "bytearray"; "bytes"; "callable"; "chr"; "classmethod"; "compile";
   "complex"; "delattr"; "dict"; "dir"; "divmod"; "enumerate"; "eval";
   "exec"; "filter"; "float"; "format"; "frozenset"; "getattr";
   "globals"; "hasattr"; "hash"; "help"; "hex"; "id"; "input"; "int";
   "isinstance"; "issubclass"; "iter"; "len"; "list"; "locals"; "map";
   "max"; "memoryview"; "min"; "next"; "object"; "oct"; "open"; "ord";
   "pow"; "print"; "property"; "range"; "repr"; "reversed"; "round";
   "set"; "setattr"; "slice"; "sorted"; "staticmethod"; "str"; "sum";
   "super"; "tuple"; "type"; "vars"; "zip"; "__import__";
   "None"; "True"; "False"; "Ellipsis"; "NotImplemented"; "Exception";
   "BaseException"; "TypeError"; "ValueError"; "KeyError"; "IndexError";
   "NameError"; "AttributeError"; "AssertionError"; "OverflowError";
   "ImportError"; "IOError"; "OSError"; "RuntimeError"; "StopIteration"].

(** A name in a function body: a local variable, else a module global,
    else a built-in, else [NameError]. *)
Definition load_name (locals : gmap string value) (n : string) :
    result value :=
  match locals !! n with
  | Some v => Ok v
  | None =>
      if bool_decide (n ∈ module_globals) || bool_decide (n ∈ builtins)
      then Ok (VGlobal n)
      else Raise (NameError n)
  end.

(** [obj._call(service_name, *args)]. *)
Definition attr_call (obj : value) (service_name : string)
    (args : list value) : M value :=
  match obj with
  | VProxy => _call service_name args
  | _ => lift (Raise AttributeError)
  end.

(** The body [self._call(service_name, a1, ..., an)] whose arguments are
    the names [arg_names]: [self] is looked up first, then the
    arguments, then the call is made. *)
Definition body_call (service_name : string) (arg_names : list string)
    (locals : gmap string value) : M value :=
  self ← lift (load_name locals "self");
  args ← lift (mapR (load_name locals) arg_names);
  attr_call self service_name args.

Definition z_exportkey : funcdef :=
  {| f_params := ["zaddr"]; f_defaults := [];
     f_body := body_call "z_exportkey" ["zaddr"] |}.

Definition z_exportwallet : funcdef :=
  {| f_params := ["filename"]; f_defaults := [];
     f_body := body_call "z_exportwallet" ["filename"] |}.

Definition z_getbalance : funcdef :=
  {| f_params := ["zaddr"; "minconf"]; f_defaults := [VInt 1];
     f_body := body_call "z_getbalance" ["minconf"] |}.

Definition z_getnewaddress : funcdef :=
  {| f_params := ["self"]; f_defaults := [];
     f_body := body_call "z_getnewaddress" [] |}.

Definition z_gettotalbalance : funcdef :=
  {| f_params := ["self"; "minconf"]; f_defaults := [VInt 1];
     f_body := body_call "z_gettotalbalance" ["minconf"] |}.

Definition z_importkey : funcdef :=
  {| f_params := ["zkey"; "rescan"; "startHeight"];
     f_defaults := [VStr "whenkeyisnew"; VInt 0];
     f_body := body_call "z_importkey" ["zkey"; "rescan"; "startHeight"] |}.

Definition z_importwallet : funcdef :=
  {| f_params := ["filename"]; f_defaults := [];
     f_body := body_call "z_importwallet" ["filename"] |}.

Definition z_listoperationids : funcdef :=
  {| f_params := []; f_defaults := [];
     f_body := body_call "z_listoperationids" [] |}.

(** A call of the method [f] on the proxy with positional arguments
    [pos] and keyword arguments [kw]: the instance is passed as the first
    positional argument. *)
Definition invoke (f : funcdef) (pos : list value)
    (kw : list (string * value)) : M value :=
  match bind_args f (VProxy :: pos) kw with
  | Raise e => lift (Raise e)
  | Ok locals => f_body f locals
  end.

End Proxy.

(** ** Collaborators to evaluate with *)

(** A core whose constructors and decoders accept every argument, with
    [COIN] one hundred million and [str] of an address the string it was
    built from. *)
Definition accepting_core : Core := {|
  COIN := 100000000;
  accepts := λ _ _, true;
  str_of := λ v, match v with VObject _ [VStr s] => s | _ => EmptyString end;
|}.

(** A core module whose [_SelectCoreParams] accepts the three profile
    names, storing the name, and raises [ValueError] on any other. *)
Definition naming_core : CoreModule := {|
  core_obj := string;
  _SelectCoreParams := λ name c,
    if bool_decide (name ∈ ["mainnet"; "testnet"; "regtest"])
    then (Ok (), inr name)
    else (Raise ValueError, c);
|}.

(** A proxy on a connection with the replies [node] to come. *)
Definition fresh_proxy (node : list http_response) : BaseProxy :=
  {| __service_url := "http://user:pw@localhost:18232";
     __id_count := 0;
     __conn := {| sent := []; pending := node |} |}.

(** The response [{"result": r, "error": null, "id": 1}]. *)
Definition reply (r : wire) : http_response :=
  Body (WObject [("result", r); ("error", WNull);
                 ("id", WNumber (Decimal.Decimal
                                   (Decimal.Pos (Decimal.D1 Decimal.Nil))
                                   Decimal.Nil))]).

(** ** Vocabulary of the specification *)

(** The table of the error taxonomy as the specification words it: seven
    codes with a kind of their own, the generic kind for the rest. *)
Definition kind_of_code (c : Z) : rpc_class :=
  if c =? -2 then ForbiddenBySafeModeError
  else if c =? -5 then InvalidAddressOrKeyError
  else if c =? -8 then InvalidParameterError
  else if c =? -25 then VerifyError
  else if c =? -26 then VerifyRejectedError
  else if c =? -27 then VerifyAlreadyInChainError
  else if c =? -28 then InWarmupError
  else JSONRPCError.

(** The profile names [SelectParams] knows. *)
Definition profile_names : list string := ["mainnet"; "testnet"; "regtest"].

(** The globals after import, over [naming_core]. *)
Definition naming_start : @globals naming_core :=
  @zcash.initial naming_core (inr "mainnet").

(** A verbose [getrawtransaction] reply with the fields the node computes
    from the transaction and one it does not. *)
Definition verbose_reply : wire :=
  let num n := WNumber (Decimal.Decimal (Decimal.Pos n) Decimal.Nil) in
  WObject [("hex", WString "0100"); ("txid", WString "ab");
           ("version", num (Decimal.D1 Decimal.Nil));
           ("locktime", num (Decimal.D0 Decimal.Nil));
           ("vin", WArray []); ("vout", WArray []);
           ("confirmations", num (Decimal.D3 Decimal.Nil))].

(** The z-address operations defined without [self]. *)
Definition z_methods_without_self `{Core} : list funcdef :=
  [z_exportkey; z_exportwallet; z_getbalance; z_importkey; z_importwallet;
   z_listoperationids].

(** A [gettxout] reply [r] that carries what the decoding reads: a
    [value] that converts to [k] smallest units, a [scriptPubKey] whose
    [hex] decodes to [b], a [bestblock] that decodes to [bb], and
    constructors that accept them. [m] is the reply's dictionary. *)
Definition txout_reply `{Core} (r : value) (m : gmap string value) (k : Z)
    (b bb : list byte) : Prop :=
  ∃ v spk h hb,
    r = VDict m
    ∧ m !! "value" = Some v ∧ to_smallest_unit COIN v = Ok k
    ∧ m !! "scriptPubKey" = Some spk ∧ getitem spk "hex" = Ok h
    ∧ unhexlify h = Ok b
    ∧ accepts "CScript" [VBytes b] = true
    ∧ accepts "CTxOut" [VInt k; VObject "CScript" [VBytes b]] = true
    ∧ m !! "bestblock" = Some hb ∧ lx hb = Ok bb.

(** [CTxOut(k, CScript(b))]. *)
Definition txout (k : Z) (b : list byte) : value :=
  VObject "CTxOut" [VInt k; VObject "CScript" [VBytes b]].

(** The record made of such a reply: [txout] added, [value] and
    [scriptPubKey] removed, [bestblock] as bytes. *)
Definition txout_record (m : gmap string value) (k : Z) (b bb : list byte) :
    value :=
  VDict (<["bestblock" := VBytes bb]>
           (delete "scriptPubKey"
              (delete "value" (<["txout" := txout k b]> m)))).

(** A reply to [gettxout] for an output of 1.5 coins. *)
Definition txout_wire : wire :=
  WObject [("bestblock", WString "00ff");
           ("confirmations",
            WNumber (Decimal.Decimal (Decimal.Pos (Decimal.D6 Decimal.Nil))
                                     Decimal.Nil));
           ("value",
            WNumber (Decimal.Decimal (Decimal.Pos (Decimal.D1 Decimal.Nil))
                                     (Decimal.D5 Decimal.Nil)));
           ("scriptPubKey", WObject [("hex", WString "76a9")])].

(** The number a [Decimal] stands for is [signed d * 10 ^ _exp d]. *)
Definition signed (d : decimal.Decimal) : Z :=
  (if decimal._sign d then -1 else 1) * decimal._int d.

(** [scales_to coin v k]: the number [v], times [coin], is exactly the
    integer [k]. For a [Decimal] both sides are cleared of the power of
    ten. *)
Definition scales_to (coin : Z) (v : value) (k : Z) : Prop :=
  match v with
  | VInt z => z * coin = k
  | VDecimal d =>
      signed d * coin * 10 ^ Z.max 0 (decimal._exp d)
        = k * 10 ^ Z.max 0 (- decimal._exp d)
  | _ => False
  end.

(** An entry of a [listunspent] result that carries what the loop body
    reads, with the number literal [n] as its [amount]. *)
Definition unspent_entry `{Core} (e : value) (n : Decimal.decimal) : Prop :=
  ∃ m t h vo a s b,
    e = VDict m
    ∧ m !! "txid" = Some t ∧ lx t = Ok h
    ∧ m !! "vout" = Some vo
    ∧ accepts "COutPoint" [VBytes h; vo] = true
    ∧ m !! "address" = Some a
    ∧ accepts "CBitcoinAddress" [a] = true
    ∧ m !! "scriptPubKey" = Some s ∧ unhexlify s = Ok b
    ∧ accepts "CScript" [VBytes b] = true
    ∧ m !! "amount" = Some (loads_number n).

(** The claim about [listunspent] without a bound on the size of the
    amounts: every entry whose amount times [COIN] is an integer comes
    back with that integer. *)
Definition listunspent_exact_at_any_size : Prop :=
  ∀ (H : Core) (minconf maxconf : Z) (addrs : option (list value))
    (p p' : BaseProxy) (items : list value)
    (amounts : list (Decimal.decimal * Z)),
    listunspent_request minconf maxconf addrs p = (Ok (VList items), p') →
    Forall2 (λ e nk, unspent_entry e nk.1
                     ∧ scales_to COIN (loads_number nk.1) nk.2)
            items amounts →
    ∃ recs,
      listunspent minconf maxconf addrs p = (Ok (VList recs), p')
      ∧ Forall2 (λ rec nk, getitem rec "amount" = Ok (VInt nk.2))
                recs amounts.

(** An entry of a [listunspent] result with the given amount. *)
Definition unspent_wire (amount : Decimal.decimal) : wire :=
  WObject [("txid", WString "00ff");
           ("vout", WNumber (Decimal.Decimal
                               (Decimal.Pos (Decimal.D1 Decimal.Nil))
                               Decimal.Nil));
           ("address", WString "t1abc");
           ("scriptPubKey", WString "76a9");
           ("amount", WNumber amount)].

(** The literal [0.0005]. *)
Definition lit_0_0005 : Decimal.decimal :=
  Decimal.Decimal (Decimal.Pos (Decimal.D0 Decimal.Nil))
    (Decimal.D0 (Decimal.D0 (Decimal.D0 (Decimal.D5 Decimal.Nil)))).

(** The literal [1000000000000000000000.00000001]: thirty significant
    digits, eight of them after the point. *)
Definition lit_30_digits : Decimal.decimal :=
  Decimal.Decimal (Decimal.Pos (N.to_uint 1000000000000000000000))
    (Decimal.D0 (Decimal.D0 (Decimal.D0 (Decimal.D0 (Decimal.D0 (Decimal.D0
      (Decimal.D0 (Decimal.D1 Decimal.Nil)))))))).

(** ** More of [zcash/rpc.py] *)

(** [k in s] for two strings: [k] occurs in [s]. *)
Fixpoint is_infix (k s : string) : bool :=
  String.prefix k s
  || match s with
     | EmptyString => false
     | String _ s' => is_infix k s'
     end.

(** [k in v] for a string [k] and any value of a reply: a key of a
    dictionary, an element of a list, a substring of a string; the other
    values are no containers. *)
Definition py_in (k : string) (v : value) : result bool :=
  match v with
  | VDict m => Ok (bool_decide (is_Some (m !! k)))
  | VList l =>
      Ok (existsb (λ e, match e with VStr s => String.eqb s k | _ => false end)
                  l)
  | VStr s => Ok (is_infix k s)
  | _ => Raise TypeError
  end.

Module core.

(** Modelled from the spec: [x] of [zcash.core], which is not among the
    sources: one of the "hex⇄bytes and big/little-endian byte-order
    conversion utilities". The example script calls it a "convenience
    function that takes big-endian hex and converts it to bytes". *)
Definition x (h : value) : result (list byte) := unhexlify h.

End core.

(** The proxy after a request for [service_name] went out and the first
    pending reply was taken. *)
Definition after_request (p : BaseProxy) (service_name : string)
    (args : list value) (rest : list http_response) : BaseProxy :=
  {| __service_url := __service_url p;
     __id_count := __id_count p + 1;
     __conn := {| sent := sent (__conn p)
                          ++ [{| method := service_name; req_params := args;
                                 req_id := __id_count p + 1 |}];
                  pending := rest |} |}.

(** The proxy after a series of calls, each made whatever became of the
    one before. *)
Definition after_calls (calls : list (string * list value)) (p : BaseProxy) :
    BaseProxy :=
  foldl (λ p c, (_call c.1 c.2 p).2) p calls.

(** The objects [tx.serialize()] is called on are collaborators too. *)
Class Serialize := { serialize : value → result (list byte) }.

Section MoreProxy.
Context `{Core}.

(** [getbalance(account, minconf)], both arguments given. *)
Definition getbalance (account : value) (minconf : value) : M Z :=
  r ← _call "getbalance" [account; minconf];
  lift (to_smallest_unit COIN r).

(** [getreceivedbyaddress(addr, minconf)]. *)
Definition getreceivedbyaddress (addr : value) (minconf : value) : M Z :=
  r ← _call "getreceivedbyaddress" [VStr (str_of addr); minconf];
  lift (to_smallest_unit COIN r).

(** What [getblockheader] does with the node's reply. *)
Definition getblockheader_decode (verbose : bool) (r : value) :
    result value :=
  if verbose then
    has ← py_in "nextblockhash" r;
    nextblockhash ← (if has : bool then
                       h ← getitem r "nextblockhash"; l ← lx h; Ok (VBytes l)
                     else Ok VNone);
    confirmations ← getitem r "confirmations";
    height ← getitem r "height";
    mediantime ← getitem r "mediantime";
    cw ← getitem r "chainwork";
    chainwork ← core.x cw;
    Ok (VDict (<["confirmations" := confirmations]>
              (<["height" := height]>
              (<["mediantime" := mediantime]>
              (<["nextblockhash" := nextblockhash]>
              (<["chainwork" := VBytes chainwork]> ∅))))))
  else
    b ← unhexlify r;
    construct "CBlockHeader.deserialize" [VBytes b].

(** [getblockheader(block_hash, verbose)] for a byte string
    [block_hash]; on any other argument the source turns the [TypeError]
    of [b2lx] into one of its own. *)
Definition getblockheader (block_hash : list byte) (verbose : bool) :
    M value :=
  r ← except_rpc
        (_call "getblockheader" [VStr (b2lx block_hash); VBool verbose])
        InvalidAddressOrKeyError IndexError;
  lift (getblockheader_decode verbose r).

(** [getblock(block_hash)], for a byte string likewise. *)
Definition getblock (block_hash : list byte) : M value :=
  r ← except_rpc
        (_call "getblock" [VStr (b2lx block_hash); VBool false])
        InvalidAddressOrKeyError IndexError;
  lift (b ← unhexlify r; construct "CBlock.deserialize" [VBytes b]).

(** [getblockhash(height)]: the [try] spans the call and [lx]. *)
Definition getblockhash (height : value) : M value :=
  except_rpc
    (r ← _call "getblockhash" [height];
     lift (l ← lx r; Ok (VBytes l)))
    InvalidParameterError IndexError.

(** One of the two conversions of [getinfo]: [if key in r: r[key] =
    int(r[key] * COIN)]. *)
Definition rescale (key : string) (r : value) : result value :=
  has ← py_in key r;
  if has : bool then
    v ← getitem r key;
    k ← to_smallest_unit COIN v;
    setitem r key (VInt k)
  else Ok r.

(** What [getinfo] does with the node's reply. *)
Definition getinfo_decode (r : value) : result value :=
  r ← rescale "balance" r;
  rescale "paytxfee" r.

(** [getinfo()]. *)
Definition getinfo : M value :=
  r ← _call "getinfo" [];
  lift (getinfo_decode r).

(** [getrawmempool(verbose)]. *)
Definition getrawmempool (verbose : bool) : M value :=
  if verbose then _call "getrawmempool" [VBool verbose]
  else
    r ← _call "getrawmempool" [];
    lift (items ← iter r;
          hashes ← mapR (λ txid, l ← lx txid; Ok (VBytes l)) items;
          Ok (VList hashes)).

(** [gettransaction(txid)]. *)
Definition gettransaction (txid : list byte) : M value :=
  except_rpc (_call "gettransaction" [VStr (b2lx txid)])
             InvalidAddressOrKeyError IndexError.

(** What [signrawtransaction] does with the node's reply. *)
Definition signrawtransaction_decode (r : value) : result value :=
  h ← getitem r "hex";
  b ← unhexlify h;
  tx ← construct "CTransaction.deserialize" [VBytes b];
  r ← setitem r "tx" tx;
  delitem r "hex".

(** What [fundrawtransaction] does with the node's reply. *)
Definition fundrawtransaction_decode (r : value) : result value :=
  r ← signrawtransaction_decode r;
  fee ← getitem r "fee";
  k ← to_smallest_unit COIN fee;
  setitem r "fee" (VInt k).

(** [fundrawtransaction(tx, include_watching)]. *)
Definition fundrawtransaction `{Serialize} (tx : value)
    (include_watching : bool) : M value :=
  b ← lift (serialize tx);
  r ← _call "fundrawtransaction" [VStr (hexlify b); VBool include_watching];
  lift (fundrawtransaction_decode r).

(** [signrawtransaction(tx, *args)]. *)
Definition signrawtransaction `{Serialize} (tx : value)
    (args : list value) : M value :=
  b ← lift (serialize tx);
  r ← _call "signrawtransaction" (VStr (hexlify b) :: args);
  lift (signrawtransaction_decode r).

Definition z_getoperationresult : funcdef :=
  {| f_params := ["self"; "opid"]; f_defaults := [];
     f_body := body_call "z_getoperationresult" [] |}.

Definition z_getoperationstatus : funcdef :=
  {| f_params := ["self"; "opid"]; f_defaults := [];
     f_body := body_call "z_getoperationstatus" [] |}.

End MoreProxy.

(** A serializer for evaluation: an object built from a byte string
    serializes to it. *)
Definition plain_serializer : Serialize := {|
  serialize := λ v, match v with
                    | VObject _ [VBytes b] => Ok b
                    | _ => Raise AttributeError
                    end;
|}.

(** *** Vocabulary for the properties of these *)

(** The configuration a file's lines parse to. *)
Definition parsed_conf (lines : list string) : gmap string value :=
  foldl conf_line (<["rpcuser" := VStr EmptyString]> ∅) lines.

(** The text of a configuration entry, empty where there is none. *)
Definition conf_text (conf : gmap string value) (k : string) : string :=
  match conf !! k with Some (VStr s) => s | _ => EmptyString end.

(** A session whose requests carry increasing identifiers, none beyond
    the counter. *)
Definition session_ok (p : BaseProxy) : Prop :=
  (∀ (i j : nat) ri rj,
     sent (__conn p) !! i = Some ri → sent (__conn p) !! j = Some rj →
     (i < j)%nat → req_id ri < req_id rj)
  ∧ (∀ (i : nat) ri,
       sent (__conn p) !! i = Some ri → req_id ri ≤ __id_count p).

(** The response [{"result": null, "error": {"code": c, "message": m},
    "id": 1}]. *)
Definition error_reply (c : Decimal.int) (m : string) : http_response :=
  Body (WObject [("result", WNull);
                 ("error",
                  WObject [("code", WNumber (Decimal.Decimal c Decimal.Nil));
                           ("message", WString m)]);
                 ("id", WNumber (Decimal.Decimal
                                   (Decimal.Pos (Decimal.D1 Decimal.Nil))
                                   Decimal.Nil))]).

(** The port and the host a parsed configuration gives: 18232 and
    [localhost] unless the file says otherwise. *)
Definition conf_port (conf : gmap string value) : option Z :=
  match conf !! "rpcport" with
  | None => Some 18232
  | Some (VStr s) => pystr.to_int s
  | Some _ => None
  end.

Definition conf_host (conf : gmap string value) : string :=
  match conf !! "rpcconnect" with
  | Some (VStr s) => s
  | _ => "localhost"
  end.

(** A balance of 19 billionths of a coin, owed. *)
Definition lit_minus_19_billionths : Decimal.decimal :=
  Decimal.Decimal (Decimal.Neg (Decimal.D0 Decimal.Nil))
    (Decimal.D0 (Decimal.D0 (Decimal.D0 (Decimal.D0 (Decimal.D0 (Decimal.D0
      (Decimal.D0 (Decimal.D1 (Decimal.D9 Decimal.Nil))))))))).

(** A verbose [getblockheader] reply for the tip of the chain: no
    [nextblockhash], and fields of the header itself beside the five. *)
Definition header_wire : wire :=
  let num n := WNumber (Decimal.Decimal (Decimal.Pos n) Decimal.Nil) in
  WObject [("hash", WString "00ff");
           ("confirmations", num (Decimal.D1 Decimal.Nil));
           ("height", num (Decimal.D7 Decimal.Nil));
           ("version", num (Decimal.D4 Decimal.Nil));
           ("mediantime", num (Decimal.D9 Decimal.Nil));
           ("chainwork", WString "0100")].

(** A [getinfo] reply with a balance of 0.0005 coins. *)
Definition info_wire : wire :=
  let num n := WNumber (Decimal.Decimal (Decimal.Pos n) Decimal.Nil) in
  WObject [("version", num (Decimal.D1 Decimal.Nil));
           ("balance", WNumber lit_0_0005);
           ("blocks", num (Decimal.D7 Decimal.Nil))].

(** A [fundrawtransaction] reply. *)
Definition funded_wire : wire :=
  WObject [("hex", WString "0100");
           ("fee", WNumber lit_0_0005);
           ("changepos",
            WNumber (Decimal.Decimal (Decimal.Neg (Decimal.D1 Decimal.Nil))
                                     Decimal.Nil))].

(** * Properties *)

(** ** Steps of fallible code *)

(** A step of a fallible sequence that returned did so from a first part
    that returned. *)
Lemma result_bind_Ok {A B} (r : result A) (k : A → result B) (b : B) :
  (a ← r; k a) = Ok b → ∃ a, r = Ok a ∧ k a = Ok b.
Proof. destruct r as [a|e]; [by exists a | discriminate]. Qed.

Lemma getitem_Ok (r x : value) (k : string) :
  getitem r k = Ok x → ∃ m, r = VDict m ∧ m !! k = Some x.
Proof.
  destruct r; try discriminate. cbn.
  destruct (_ !! _) eqn:E; [|discriminate]. intros [= <-]. eauto.
Qed.

Lemma construct_Ok `{Core} (cls : string) (args : list value) (v : value) :
  construct cls args = Ok v → accepts cls args = true ∧ v = VObject cls args.
Proof.
  unfold construct. destruct (accepts cls args); [|discriminate].
  by intros [= <-].
Qed.

(** ** The error taxonomy *)

Lemma SUBCLS_BY_CODE_lookup (c : Z) :
  default JSONRPCError (SUBCLS_BY_CODE !! c) = kind_of_code c.
Proof.
  unfold SUBCLS_BY_CODE, kind_of_code.
  cbn [foldl _register_subcls RPC_ERROR_CODE].
  repeat (rewrite lookup_insert; case_decide; [subst c; reflexivity|]).
  rewrite lookup_empty.
  repeat match goal with
         | |- context [c =? ?k] => destruct (Z.eqb_spec c k); [congruence|]
         end.
  reflexivity.
Qed.

(** C2. Constructing [JSONRPCError(rpc_error)] from a dictionary with an
    integer [code] and a [message] gives the class the table maps the code
    to: one of the seven subclasses for -2, -5, -8, -25, -26, -27, -28, the
    base class for every other code. The [error] attribute is the
    dictionary itself, so code and message are read back from it
    unchanged. *)
Theorem JSONRPCError_class_by_code (d : gmap string value) (c : Z)
    (m : value) :
  d !! "code" = Some (VInt c) →
  d !! "message" = Some m →
  JSONRPCError_new JSONRPCError (VDict d)
    = Ok (RPCError (kind_of_code c) (VDict d))
  ∧ (kind_of_code c ≠ JSONRPCError
     ↔ c ∈ [-2; -5; -8; -25; -26; -27; -28])
  ∧ getitem (VDict d) "code" = Ok (VInt c)
  ∧ getitem (VDict d) "message" = Ok m.
Proof.
  intros Hc Hm. repeat split.
  - unfold JSONRPCError_new, subcls_get, getitem. cbn.
    rewrite Hc, Hm. cbn. by rewrite SUBCLS_BY_CODE_lookup.
  - unfold kind_of_code.
    repeat match goal with
           | |- context [c =? ?k] =>
               destruct (Z.eqb_spec c k) as [->|?]; [set_solver|]
           end.
    congruence.
  - intros Hin. unfold kind_of_code.
    repeat (apply elem_of_cons in Hin as [->|Hin]; [by cbn|]).
    by apply elem_of_nil in Hin.
  - unfold getitem. by rewrite Hc.
  - unfold getitem. by rewrite Hm.
Qed.

Lemma JSONRPCError_class_by_code_witness :
  JSONRPCError_new JSONRPCError (error_dict (-5) "x")
    = Ok (RPCError InvalidAddressOrKeyError (error_dict (-5) "x")).
Proof.
  exact (proj1 (JSONRPCError_class_by_code
                  (<["code" := VInt (-5)]> (<["message" := VStr "x"]> ∅))
                  (-5) (VStr "x") eq_refl eq_refl)).
Defined.

(** A code that is no integer: a [Decimal] equal to an integer is found
    under that integer, a string, [None] or a float constant under no key,
    and a list or dictionary cannot be looked up at all. *)
Lemma JSONRPCError_class_by_key (d : gmap string value) (code m : value) :
  d !! "code" = Some code →
  d !! "message" = Some m →
  JSONRPCError_new JSONRPCError (VDict d)
    = match int_key code with
      | Ok (Some c) => Ok (RPCError (kind_of_code c) (VDict d))
      | Ok None => Ok (RPCError JSONRPCError (VDict d))
      | Raise e => Raise e
      end.
Proof.
  intros Hc Hm. unfold JSONRPCError_new, subcls_get, getitem. cbn.
  rewrite Hc. cbn. destruct (int_key code) as [[c|]|e]; cbn.
  - by rewrite Hm, SUBCLS_BY_CODE_lookup.
  - by rewrite Hm.
  - reflexivity.
Qed.

(** ** Chain parameters *)

Lemma eqb_profile_other (name : string) :
  name ∉ profile_names →
  String.eqb name "mainnet" = false ∧ String.eqb name "testnet" = false
  ∧ String.eqb name "regtest" = false.
Proof.
  unfold profile_names. intros Hn.
  repeat split; apply String.eqb_neq; intros ->; apply Hn; set_solver.
Qed.

(** C3. For each of the names mainnet, testnet and regtest,
    [SelectParams(name)] returns and leaves in the global [params] the
    instance of the class for that name, provided the core module's
    [_SelectCoreParams(name)] returns; that instance carries the table's
    constants: ports 8233/8232, 18233/18232, 18444/18232, the magic bytes
    and the address prefixes. This holds in [zcash] and in [bitcoin],
    whose regtest prefixes are integers. *)
Theorem SelectParams_sets_profile `{CoreModule} (name : string)
    (g : globals) :
  name ∈ profile_names →
  (_SelectCoreParams name (coreparams g)).1 = Ok () →
  ∃ pz pb : ChainParams,
    zcash.SelectParams name g
      = (Ok (), {| params := pz; coreparams := inl pz |})
    ∧ bitcoin.SelectParams name g
      = (Ok (), {| params := pb; coreparams := inl pb |})
    ∧ (name = "mainnet" →
         pz = zcash.MainParams ∧ pb = bitcoin.MainParams
         ∧ class_name pz = "MainParams" ∧ class_name pb = "MainParams"
         ∧ DEFAULT_PORT pz = 8233 ∧ RPC_PORT pz = 8232
         ∧ DEFAULT_PORT pb = 8233 ∧ RPC_PORT pb = 8232
         ∧ MESSAGE_START pz = [x24; xe9; x27; x64]
         ∧ MESSAGE_START pb = [x24; xe9; x27; x64]
         ∧ BASE58_PREFIXES pz !! "PUBKEY_ADDR" = Some (VBytes [x1c; xb8])
         ∧ BASE58_PREFIXES pz !! "SCRIPT_ADDR" = Some (VBytes [x1c; xbd])
         ∧ BASE58_PREFIXES pz !! "SECRET_KEY" = Some (VInt 128)
         ∧ BASE58_PREFIXES pb = BASE58_PREFIXES pz)
    ∧ (name = "testnet" →
         pz = zcash.TestNetParams ∧ pb = bitcoin.TestNetParams
         ∧ class_name pz = "TestNetParams" ∧ class_name pb = "TestNetParams"
         ∧ DEFAULT_PORT pz = 18233 ∧ RPC_PORT pz = 18232
         ∧ DEFAULT_PORT pb = 18233 ∧ RPC_PORT pb = 18232
         ∧ MESSAGE_START pz = [xfa; x1a; xf9; xbf]
         ∧ MESSAGE_START pb = [xfa; x1a; xf9; xbf]
         ∧ BASE58_PREFIXES pz !! "PUBKEY_ADDR" = Some (VBytes [x1d; x25])
         ∧ BASE58_PREFIXES pz !! "SCRIPT_ADDR" = Some (VBytes [x1c; xba])
         ∧ BASE58_PREFIXES pz !! "SECRET_KEY" = Some (VInt 239)
         ∧ BASE58_PREFIXES pb = BASE58_PREFIXES pz)
    ∧ (name = "regtest" →
         pz = zcash.RegTestParams ∧ pb = bitcoin.RegTestParams
         ∧ class_name pz = "RegTestParams" ∧ class_name pb = "RegTestParams"
         ∧ DEFAULT_PORT pz = 18444 ∧ RPC_PORT pz = 18232
         ∧ DEFAULT_PORT pb = 18444 ∧ RPC_PORT pb = 18232
         ∧ MESSAGE_START pz = [xaa; xea; x3f; x5f]
         ∧ MESSAGE_START pb = [xaa; xea; x3f; x5f]
         ∧ BASE58_PREFIXES pz !! "PUBKEY_ADDR" = Some (VBytes [x1d; x25])
         ∧ BASE58_PREFIXES pz !! "SCRIPT_ADDR" = Some (VBytes [x1c; xba])
         ∧ BASE58_PREFIXES pz !! "SECRET_KEY" = Some (VInt 239)
         ∧ BASE58_PREFIXES pb !! "PUBKEY_ADDR" = Some (VInt 7461)
         ∧ BASE58_PREFIXES pb !! "SCRIPT_ADDR" = Some (VInt 7354)
         ∧ BASE58_PREFIXES pb !! "SECRET_KEY" = Some (VInt 239)).
Proof.
  intros Hname Hcore.
  unfold zcash.SelectParams, bitcoin.SelectParams.
  destruct (_SelectCoreParams name (coreparams g)) as [r c] eqn:Hsel.
  cbn in Hcore. subst r.
  unfold profile_names in Hname.
  apply elem_of_cons in Hname as [->|Hname];
    [|apply elem_of_cons in Hname as [->|Hname];
      [|apply elem_of_cons in Hname as [->|Hname];
        [|by apply elem_of_nil in Hname]]];
    cbn; eexists _, _; (split; [reflexivity|]); (split; [reflexivity|]);
    repeat split; try discriminate; reflexivity.
Qed.

Lemma SelectParams_sets_profile_witness :
  ∃ pz pb : ChainParams,
    zcash.SelectParams (H := naming_core) "testnet"
        naming_start
      = (Ok (), {| params := pz; coreparams := inl pz |})
    ∧ bitcoin.SelectParams (H := naming_core) "testnet"
        naming_start
      = (Ok (), {| params := pb; coreparams := inl pb |})
    ∧ RPC_PORT pz = 18232 ∧ DEFAULT_PORT pb = 18233.
Proof.
  destruct (SelectParams_sets_profile (H := naming_core) "testnet"
              naming_start)
    as (pz & pb & Hz & Hb & _ & Ht & _).
  - unfold profile_names. apply elem_of_cons. right.
    apply elem_of_cons. by left.
  - reflexivity.
  - exists pz, pb. destruct (Ht eq_refl) as (-> & -> & _).
    split; [exact Hz|]. split; [exact Hb|]. split; reflexivity.
Defined.

(** C4. For a name other than mainnet, testnet and regtest,
    [SelectParams(name)] raises, and the global [params] is what it was
    before the call. The exception is [ValueError] unless the core
    module's [_SelectCoreParams] raised first. *)
Theorem SelectParams_unknown_name `{CoreModule} (name : string)
    (g : globals) :
  name ∉ profile_names →
  (∃ e, (zcash.SelectParams name g).1 = Raise e
        ∧ ((_SelectCoreParams name (coreparams g)).1 = Ok () →
           e = ValueError))
  ∧ params (zcash.SelectParams name g).2 = params g
  ∧ (∃ e, (bitcoin.SelectParams name g).1 = Raise e
          ∧ ((_SelectCoreParams name (coreparams g)).1 = Ok () →
             e = ValueError))
  ∧ params (bitcoin.SelectParams name g).2 = params g.
Proof.
  intros Hname.
  destruct (eqb_profile_other name Hname) as (Hm & Ht & Hr).
  unfold zcash.SelectParams, bitcoin.SelectParams.
  destruct (_SelectCoreParams name (coreparams g)) as [[[]|e] c];
    rewrite ?Hm, ?Ht, ?Hr; cbn;
    repeat split; eauto; eexists; split; eauto; discriminate.
Qed.

Lemma SelectParams_unknown_name_witness :
  params (zcash.SelectParams (H := naming_core) "mainet"
            naming_start).2 = zcash.MainParams.
Proof.
  refine (proj1 (proj2 (SelectParams_unknown_name (H := naming_core) "mainet"
                          naming_start _))).
  unfold profile_names. intros Hin.
  repeat (apply elem_of_cons in Hin as [Hin|Hin]; [discriminate|]).
  by apply elem_of_nil in Hin.
Defined.

(** ** Construction of the proxy *)

(** Whatever the constructor's [service_port] and the active profile, the
    port written into the configuration is 18232 unless the file names
    one. *)
Lemma read_conf_rpcport (service_port : option Z) (active : ChainParams)
    (lines : list string) (conf : gmap string value) :
  foldl conf_line (<["rpcuser" := VStr EmptyString]> ∅) lines !! "rpcport"
    = None →
  read_conf service_port active lines = Ok conf →
  conf !! "rpcport" = Some (VInt 18232).
Proof.
  unfold read_conf. intros -> Hread. cbn in Hread.
  destruct (_ !! "rpcpassword"); [|discriminate].
  injection Hread as <-.
  rewrite lookup_insert_ne by discriminate. apply lookup_insert_eq.
Qed.

(** C5. A proxy built without a URL from a configuration file that names a
    password and no port gets port 18232 whatever profile is active and
    whatever [service_port] the caller passed; with the main network
    active, whose [RPC_PORT] is 8232, the endpoint is still on 18232. *)
Theorem BaseProxy_init_port_ignores_profile (service_port : option Z)
    (active : ChainParams) :
  BaseProxy_service_url None service_port (Ok ["rpcpassword=pw"]) active
    = Ok "http://:pw@localhost:18232"
  ∧ RPC_PORT zcash.MainParams = 8232.
Proof. split; reflexivity. Qed.

(** ** Responses *)

Lemma check_response_error (m : gmap string value) (err : value) :
  m !! "error" = Some err → err ≠ VNone →
  check_response (VDict m) = raise_JSONRPCError err.
Proof.
  intros Hm Hne. unfold check_response. cbn. rewrite Hm. cbn.
  by destruct err.
Qed.

Lemma check_response_missing_result (m : gmap string value) :
  m !! "error" = Some VNone → m !! "result" = None →
  check_response (VDict m)
    = Raise (RPCError JSONRPCError
               (error_dict (-343) "missing JSON-RPC result")).
Proof.
  intros He Hr. unfold check_response. cbn. rewrite He. cbn.
  rewrite Hr. rewrite bool_decide_eq_false_2 by (by intros [? ?]).
  reflexivity.
Qed.

Lemma check_response_result (m : gmap string value) (r : value) :
  m !! "error" = Some VNone → m !! "result" = Some r →
  check_response (VDict m) = Ok r.
Proof.
  intros He Hr. unfold check_response. cbn. rewrite He. cbn.
  rewrite Hr. rewrite bool_decide_eq_true_2 by eauto. reflexivity.
Qed.

Lemma check_response_no_error_key (m : gmap string value) :
  m !! "error" = None → check_response (VDict m) = Raise (KeyError "error").
Proof. intros He. unfold check_response. cbn. by rewrite He. Qed.

(** C6. On the response [{}], which has neither [result] nor [error],
    [_call] raises [KeyError] for the key [error]: the lookup
    [response['error']] comes before the test for a missing result, so the
    error with code -343 is not what the caller gets. *)
Theorem call_empty_response_raises_KeyError (service_name : string)
    (rest : list http_response) :
  (_call service_name [] (fresh_proxy (Body (WObject []) :: rest))).1
    = Raise (KeyError "error")
  ∧ (_call service_name [] (fresh_proxy (Body (WObject []) :: rest))).1
    ≠ Raise (RPCError JSONRPCError
               (error_dict (-343) "missing JSON-RPC result")).
Proof. split; [reflexivity | discriminate]. Qed.

(** ** [getrawtransaction] *)

(** C8. On a verbose reply, [getrawtransaction] returns a record with the
    decoded transaction under [tx] and without [txid], [version],
    [locktime], [vin] and [vout], but the raw [hex] field, which the
    decoded transaction carries as well, is still in it. *)
Theorem getrawtransaction_verbose_keeps_hex (txid : list byte) :
  ∃ v p',
    getrawtransaction (H := accepting_core) txid true
        (fresh_proxy [reply verbose_reply]) = (Ok v, p')
    ∧ getitem v "hex" = Ok (VStr "0100")
    ∧ getitem v "tx"
      = Ok (VObject "CTransaction.deserialize" [VBytes [x01; x00]])
    ∧ getitem v "txid" = Raise (KeyError "txid")
    ∧ getitem v "version" = Raise (KeyError "version")
    ∧ getitem v "locktime" = Raise (KeyError "locktime")
    ∧ getitem v "vin" = Raise (KeyError "vin")
    ∧ getitem v "vout" = Raise (KeyError "vout")
    ∧ getitem v "blockhash" = Ok VNone
    ∧ getitem v "confirmations" = Ok (VInt 3).
Proof.
  eexists _, _. split; [reflexivity|]. repeat split; reflexivity.
Qed.

(** Whenever the verbose decoding returns, the record it returns still
    holds the reply's [hex], next to [tx] and [blockhash], and none of the
    five stripped keys. *)
Lemma getrawtransaction_decode_verbose `{Core} (r v : value) :
  getrawtransaction_decode true r = Ok v →
  ∃ h b bh,
    getitem r "hex" = Ok h ∧ unhexlify h = Ok b
    ∧ getitem v "hex" = Ok h
    ∧ getitem v "tx" = Ok (VObject "CTransaction.deserialize" [VBytes b])
    ∧ getitem v "blockhash" = Ok bh
    ∧ Forall (λ k, getitem v k = Raise (KeyError k))
        ["txid"; "version"; "locktime"; "vin"; "vout"].
Proof.
  unfold getrawtransaction_decode. intros Hd.
  apply result_bind_Ok in Hd as (h & Hh & Hd).
  apply result_bind_Ok in Hd as (b & Hb & Hd).
  apply result_bind_Ok in Hd as (tx & Htx & Hd).
  apply construct_Ok in Htx as [_ ->].
  apply result_bind_Ok in Hd as (r1 & Hr1 & Hd).
  apply getitem_Ok in Hh as (m & -> & Hm).
  cbn in Hr1. injection Hr1 as <-.
  apply result_bind_Ok in Hd as (h' & Hh' & Hd).
  repeat match type of Hd with
         | (_ ← delitem _ _; _) = _ =>
             let r' := fresh "r" in let Hr := fresh "Hr" in
             apply result_bind_Ok in Hd as (r' & Hr & Hd);
             cbn in Hr; destruct (_ !! _) in Hr; [|discriminate];
             injection Hr as <-
         end.
  apply result_bind_Ok in Hd as (has & _ & Hd).
  apply result_bind_Ok in Hd as (bh & _ & Hd).
  cbn in Hd. injection Hd as <-.
  exists h, b, bh. cbn.
  rewrite Hm. split; [done|]. split; [done|].
  repeat split.
  - rewrite lookup_insert_ne by done.
    rewrite !lookup_delete_ne by done.
    rewrite lookup_insert_ne by done. by rewrite Hm.
  - rewrite lookup_insert_ne by done.
    rewrite !lookup_delete_ne by done.
    by rewrite lookup_insert_eq.
  - by rewrite lookup_insert_eq.
  - repeat constructor; rewrite lookup_insert_ne by done;
      rewrite ?(lookup_delete_ne _ "vout") by done;
      rewrite ?(lookup_delete_ne _ "vin") by done;
      rewrite ?(lookup_delete_ne _ "locktime") by done;
      rewrite ?(lookup_delete_ne _ "version") by done;
      by rewrite lookup_delete_eq.
Qed.

(** ** The z-address operations *)

Section ZMethods.
Context `{Core}.

Lemma bind_keywords_raise ps kw locals e :
  bind_keywords ps kw locals = Raise e → e = TypeError.
Proof.
  revert locals. induction kw as [|[k v] kw IH]; intros locals; cbn.
  - discriminate.
  - destruct (_ && _); [apply IH | by intros [= <-]].
Qed.

Lemma bind_keywords_dom ps kw locals locals' k :
  bind_keywords ps kw locals = Ok locals' →
  is_Some (locals' !! k) → is_Some (locals !! k) ∨ k ∈ ps.
Proof.
  revert locals. induction kw as [|[k' v] kw IH]; intros locals; cbn.
  - intros [= <-]. auto.
  - destruct (bool_decide (k' ∈ ps)) eqn:Hin; cbn; [|discriminate].
    destruct (bool_decide (locals !! k' = None)); cbn; [|discriminate].
    intros Hb Hk. destruct (IH _ Hb Hk) as [Hs|]; [|by right].
    destruct (decide (k' = k)) as [->|Hne].
    + right. by apply bool_decide_eq_true_1 in Hin.
    + left. by rewrite lookup_insert_ne in Hs.
Qed.

Lemma bind_defaults_raise ps n ds locals e :
  bind_defaults ps n ds locals = Raise e → e = TypeError.
Proof.
  revert n ds locals. induction ps as [|p ps IH]; intros n ds locals; cbn.
  - discriminate.
  - destruct n as [|n].
    + destruct ds as [|d ds]; [by intros [= <-] | apply IH].
    + destruct (locals !! p); [apply IH | by intros [= <-]].
Qed.

Lemma bind_defaults_dom ps n ds locals locals' k :
  bind_defaults ps n ds locals = Ok locals' →
  is_Some (locals' !! k) → is_Some (locals !! k) ∨ k ∈ ps.
Proof.
  revert n ds locals. induction ps as [|p ps IH]; intros n ds locals; cbn.
  - intros [= <-]. auto.
  - destruct n as [|n].
    + destruct ds as [|d ds]; [discriminate|].
      intros Hb Hk. destruct (IH _ _ _ Hb Hk) as [Hs|Hs].
      * destruct (locals !! p) eqn:Hp; [by left|].
        destruct (decide (p = k)) as [->|Hne]; [right; left|].
        left. by rewrite lookup_insert_ne in Hs.
      * right. by right.
    + destruct (locals !! p); [|discriminate].
      intros Hb Hk. destruct (IH _ _ _ Hb Hk); [by left|right; by right].
Qed.

Lemma zip_to_map_dom (ps : list string) (pos : list value) k :
  is_Some ((list_to_map (zip ps pos) : gmap string value) !! k) → k ∈ ps.
Proof.
  intros [v Hv]. apply elem_of_list_to_map_2 in Hv.
  by apply elem_of_zip_l in Hv.
Qed.

Lemma bind_args_raise f pos kw e :
  bind_args f pos kw = Raise e → e = TypeError.
Proof.
  unfold bind_args. destruct (_ <? _)%nat; [by intros [= <-]|].
  destruct (bind_keywords _ _ _) as [l|e'] eqn:Hk; cbn.
  - apply bind_defaults_raise.
  - intros [= <-]. by apply bind_keywords_raise in Hk.
Qed.

(** The local variables of a call are named by parameters. *)
Lemma bind_args_dom f pos kw locals k :
  bind_args f pos kw = Ok locals → is_Some (locals !! k) → k ∈ f_params f.
Proof.
  unfold bind_args. destruct (_ <? _)%nat; [discriminate|].
  destruct (bind_keywords _ _ _) as [l|e'] eqn:Hk; cbn; [|discriminate].
  intros Hd Hs.
  destruct (bind_defaults_dom _ _ _ _ _ _ Hd Hs) as [Hl|]; [|done].
  destruct (bind_keywords_dom _ _ _ _ _ Hk Hl) as [Hz|]; [|done].
  by apply zip_to_map_dom in Hz.
Qed.

(** A method whose parameters do not include [self] and whose body is a
    call on [self] raises on every call, before anything is sent. *)
Lemma invoke_without_self f service_name arg_names pos kw p :
  f_body f = body_call service_name arg_names →
  "self" ∉ f_params f →
  ∃ e, invoke f pos kw p = (Raise e, p)
       ∧ (e = TypeError ∨ e = NameError "self").
Proof.
  intros Hbody Hself. unfold invoke.
  destruct (bind_args f (VProxy :: pos) kw) as [locals|e] eqn:Hb.
  - exists (NameError "self"). split; [|by right].
    rewrite Hbody. unfold body_call, load_name.
    destruct (locals !! "self") eqn:Hl.
    + exfalso. apply Hself. eapply bind_args_dom; eauto.
    + reflexivity.
  - exists e. split; [reflexivity|]. left. by eapply bind_args_raise.
Qed.

(** C10. Each of [z_exportkey], [z_exportwallet], [z_getbalance],
    [z_importkey], [z_importwallet] and [z_listoperationids], called on a
    proxy with any positional and keyword arguments, raises [TypeError]
    (the arguments do not fit the parameters) or [NameError] for the
    name [self], and leaves the proxy as it was: no request is sent and
    no reply is consumed. *)
Theorem z_methods_without_self_always_raise :
  Forall (λ f, ∀ (pos : list value) (kw : list (string * value))
                 (p : BaseProxy),
            ∃ e, invoke f pos kw p = (Raise e, p)
                 ∧ (e = TypeError ∨ e = NameError "self")
                 ∧ sent (__conn (invoke f pos kw p).2) = sent (__conn p))
         z_methods_without_self.
Proof.
  unfold z_methods_without_self.
  repeat (apply Forall_cons; split); [.. | by apply Forall_nil];
    intros pos kw p;
    match goal with
    | |- ∃ e, invoke ?f _ _ _ = _ ∧ _ =>
        edestruct (invoke_without_self f) as (e & He & Hk);
        [reflexivity | | exists e; rewrite He; by repeat split]
    end;
    cbn; intros Hin;
    repeat (apply elem_of_cons in Hin as [Hin|Hin]; [discriminate|]);
    by apply elem_of_nil in Hin.
Qed.

(** By contrast, a method that names [self] reaches the transport. *)
Lemma z_getnewaddress_sends (node : list http_response) :
  sent (__conn (invoke z_getnewaddress [] [] (fresh_proxy node)).2)
    = [{| method := "z_getnewaddress"; req_params := []; req_id := 1 |}].
Proof. by destruct node as [|[] node]. Qed.

End ZMethods.

(** ** [gettxout] *)

Section GetTxOut.
Context `{Core}.

Lemma gettxout_decode_reply (r : value) (m : gmap string value) (k : Z)
    (b bb : list byte) :
  txout_reply r m k b bb → gettxout_decode r = Ok (txout_record m k b bb).
Proof.
  intros (v & spk & h & hb & -> & Hv & Hk & Hspk & Hh & Hb & Hs & Ht
          & Hbb & Hlx).
  unfold gettxout_decode, txout_record, txout, construct. cbn.
  rewrite Hv. cbn. rewrite Hk. cbn. rewrite Hspk. cbn. rewrite Hh. cbn.
  rewrite Hb. cbn. rewrite Hs. cbn. rewrite Ht. cbn.
  rewrite lookup_insert_ne, Hv by done. cbn.
  rewrite lookup_delete_ne, lookup_insert_ne, Hspk by done. cbn.
  rewrite !lookup_delete_ne, lookup_insert_ne, Hbb by done. cbn.
  rewrite Hlx. reflexivity.
Qed.

Lemma gettxout_decode_Ok (r v : value) :
  gettxout_decode r = Ok v →
  ∃ m k b bb, txout_reply r m k b bb ∧ v = txout_record m k b bb.
Proof.
  unfold gettxout_decode. intros Hd.
  apply result_bind_Ok in Hd as (rv & Hrv & Hd).
  apply result_bind_Ok in Hd as (k & Hk & Hd).
  apply result_bind_Ok in Hd as (spk & Hspk & Hd).
  apply result_bind_Ok in Hd as (h & Hh & Hd).
  apply result_bind_Ok in Hd as (b & Hb & Hd).
  apply result_bind_Ok in Hd as (s & Hs & Hd).
  apply construct_Ok in Hs as [Hs ->].
  apply result_bind_Ok in Hd as (t & Ht & Hd).
  apply construct_Ok in Ht as [Ht ->].
  apply getitem_Ok in Hrv as (m & -> & Hm).
  cbn in Hspk. destruct (m !! "scriptPubKey") as [spk'|] eqn:Hspk';
    [|discriminate]. injection Hspk as ->.
  cbn in Hd.
  rewrite lookup_insert_ne, Hm in Hd by done. cbn in Hd.
  rewrite lookup_delete_ne, lookup_insert_ne, Hspk' in Hd by done.
  cbn in Hd.
  rewrite !lookup_delete_ne, lookup_insert_ne in Hd by done.
  destruct (m !! "bestblock") as [hb|] eqn:Hbb; [|discriminate].
  cbn in Hd.
  destruct (lx hb) as [bb|] eqn:Hlx; [|discriminate].
  cbn in Hd. injection Hd as <-.
  exists m, k, b, bb. split; [|reflexivity].
  exists rv, spk, h, hb. repeat split; assumption.
Qed.

Lemma txout_record_fields (m : gmap string value) (k : Z)
    (b bb : list byte) :
  getitem (txout_record m k b bb) "txout" = Ok (txout k b)
  ∧ getitem (txout_record m k b bb) "value" = Raise (KeyError "value")
  ∧ getitem (txout_record m k b bb) "scriptPubKey"
    = Raise (KeyError "scriptPubKey").
Proof.
  unfold txout_record, getitem. repeat split.
  - rewrite lookup_insert_ne, !lookup_delete_ne by done.
    by rewrite lookup_insert_eq.
  - rewrite lookup_insert_ne, lookup_delete_ne by done.
    by rewrite lookup_delete_eq.
  - rewrite lookup_insert_ne by done. by rewrite lookup_delete_eq.
Qed.

(** After the call has returned, only the decoding is left. *)
Lemma gettxout_after_call (o : outpoint) (im : bool) (p p' : BaseProxy)
    (r : value) :
  _call "gettxout" [VStr (b2lx (op_hash o)); VInt (op_n o); VBool im] p
    = (Ok r, p') →
  gettxout o im p
    = (match r with
       | VNone => Raise IndexError
       | _ => gettxout_decode r
       end, p').
Proof.
  intros Hcall. unfold gettxout. unfold mbind at 1, M_bind.
  by rewrite Hcall.
Qed.

Lemma gettxout_call_raises (o : outpoint) (im : bool) (p p' : BaseProxy)
    (e : exn) :
  _call "gettxout" [VStr (b2lx (op_hash o)); VInt (op_n o); VBool im] p
    = (Raise e, p') →
  gettxout o im p = (Raise e, p').
Proof.
  intros Hcall. unfold gettxout. unfold mbind at 1, M_bind.
  by rewrite Hcall.
Qed.


(** [gettxout] returns [None] in no case, whatever the transport
    does. *)
Lemma gettxout_never_None (o : outpoint) (im : bool) (p : BaseProxy) :
  (gettxout o im p).1 ≠ Ok VNone.
Proof.
  destruct (_call "gettxout"
              [VStr (b2lx (op_hash o)); VInt (op_n o); VBool im] p)
    as [[r|e] p'] eqn:Hcall.
  - rewrite (gettxout_after_call o im p p' r Hcall). cbn.
    destruct r; try discriminate;
      intros Hd; apply gettxout_decode_Ok in Hd
        as (? & ? & ? & ? & _ & ?); discriminate.
  - by rewrite (gettxout_call_raises o im p p' e Hcall).
Qed.

End GetTxOut.


(** The same on a reply that is a record. *)
Lemma gettxout_record_example :
  ∃ v p',
    gettxout (H := accepting_core) {| op_hash := [x01]; op_n := 0 |} true
       (fresh_proxy [reply txout_wire]) = (Ok v, p')
    ∧ getitem v "txout" = Ok (txout 150000000 [x76; xa9])
    ∧ getitem v "value" = Raise (KeyError "value")
    ∧ getitem v "scriptPubKey" = Raise (KeyError "scriptPubKey")
    ∧ getitem v "bestblock" = Ok (VBytes [xff; x00])
    ∧ getitem v "confirmations" = Ok (VInt 6).
Proof. eexists _, _. split; [reflexivity|]. repeat split; reflexivity. Qed.

(** ** Decimal arithmetic *)

Section DecimalFacts.
Import decimal.

Lemma pow10_pos (n : Z) : 0 ≤ n → 0 < 10 ^ n.
Proof. intros. by apply Z.pow_pos_nonneg. Qed.

Lemma pow10_lt_inv (a b : Z) :
  0 ≤ a → 0 ≤ b → 10 ^ a < 10 ^ b → a < b.
Proof. intros ? ? Hlt. apply (Z.pow_lt_mono_r_iff 10); lia. Qed.

Lemma pow10_split (a b : Z) :
  0 ≤ a ≤ b → 10 ^ b = 10 ^ a * 10 ^ (b - a).
Proof. intros. rewrite <- Z.pow_add_r by lia. f_equal. lia. Qed.

Lemma count_digits_spec (fuel : nat) (c : Z) :
  0 < c → c < 10 ^ (Z.of_nat fuel + 1) →
  1 ≤ count_digits fuel c
  ∧ 10 ^ (count_digits fuel c - 1) ≤ c < 10 ^ count_digits fuel c.
Proof.
  revert c. induction fuel as [|fuel IH]; intros c Hc Hlt.
  - cbn in *. lia.
  - cbn [count_digits]. destruct (Z.ltb_spec c 10) as [Hs|Hs].
    + cbn. lia.
    + assert (Hq : 0 < c / 10) by (apply Z.div_str_pos; lia).
      assert (Hb : c / 10 < 10 ^ (Z.of_nat fuel + 1)).
      { apply Z.div_lt_upper_bound; [lia|].
        rewrite <- Z.pow_succ_r by lia.
        replace (Z.succ (Z.of_nat fuel + 1)) with (Z.of_nat (S fuel) + 1)
          by lia. exact Hlt. }
      destruct (IH (c / 10) Hq Hb) as (Hn & Hlo & Hhi).
      set (n := count_digits fuel (c / 10)) in *.
      replace (1 + n - 1) with (Z.succ (n - 1)) by lia.
      replace (1 + n) with (Z.succ n) by lia.
      rewrite !Z.pow_succ_r by lia.
      pose proof (Z.div_mod c 10 ltac:(lia)) as Hdm.
      pose proof (Z.mod_pos_bound c 10 ltac:(lia)). lia.
Qed.

(** [ndigits] counts decimal digits. *)
Lemma ndigits_spec (c : Z) :
  0 < c → 1 ≤ ndigits c ∧ 10 ^ (ndigits c - 1) ≤ c < 10 ^ ndigits c.
Proof.
  intros Hc. apply count_digits_spec; [done|].
  rewrite Z2Nat.id by apply Z.log2_nonneg.
  destruct (Z.log2_spec c Hc) as [_ Hhi].
  eapply Z.lt_le_trans; [exact Hhi|].
  replace (Z.log2 c + 1) with (Z.succ (Z.log2 c)) by lia.
  apply Z.pow_le_mono_l. pose proof (Z.log2_nonneg c). lia.
Qed.

(** A coefficient that fits the precision is left alone. *)
Lemma fix_fits (ctx : Context) (d : Decimal) :
  0 < _int d →
  Etiny ctx ≤ ndigits (_int d) + _exp d - prec ctx ≤ Etop ctx →
  ndigits (_int d) + _exp d - prec ctx ≤ _exp d →
  _fix ctx d = Some d.
Proof.
  intros Hpos [Hlo Hhi] Hle. unfold _fix.
  destruct (Z.eqb_spec (_int d) 0); [lia|].
  destruct (Z.ltb_spec (Etop ctx) (ndigits (_int d) + _exp d - prec ctx));
    [lia|].
  destruct (Z.ltb_spec (ndigits (_int d) + _exp d - prec ctx) (Etiny ctx));
    [lia|].
  destruct (Z.ltb_spec (_exp d) (ndigits (_int d) + _exp d - prec ctx));
    [lia|]. reflexivity.
Qed.

(** A coefficient too long for the precision whose surplus digits are
    zeros loses exactly those. *)
Lemma fix_drops_zeros (ctx : Context) (d : Decimal) :
  0 < _int d → 0 ≤ prec ctx →
  Etiny ctx ≤ ndigits (_int d) + _exp d - prec ctx ≤ Etop ctx →
  _exp d < ndigits (_int d) + _exp d - prec ctx →
  _int d mod 10 ^ (ndigits (_int d) - prec ctx) = 0 →
  _fix ctx d
    = Some {| _sign := _sign d;
              _int := _int d / 10 ^ (ndigits (_int d) - prec ctx);
              _exp := ndigits (_int d) + _exp d - prec ctx |}.
Proof.
  intros Hpos Hprec [Hlo Hhi] Hlt Hmod. unfold _fix.
  destruct (Z.eqb_spec (_int d) 0); [lia|].
  set (em := ndigits (_int d) + _exp d - prec ctx) in *.
  destruct (Z.ltb_spec (Etop ctx) em); [lia|].
  destruct (Z.ltb_spec em (Etiny ctx)); [lia|].
  destruct (Z.ltb_spec (_exp d) em); [|lia].
  replace (ndigits (_int d) + _exp d - em) with (prec ctx) by lia.
  destruct (Z.ltb_spec (prec ctx) 0); [lia|].
  unfold round_half_even. rewrite Hmod.
  pose proof (pow10_pos (ndigits (_int d) - prec ctx) ltac:(lia)).
  destruct (Z.eqb_spec (2 * 0) (10 ^ (ndigits (_int d) - prec ctx)));
    [lia|].
  cbn [andb].
  destruct (Z.leb_spec (10 ^ (ndigits (_int d) - prec ctx)) (2 * 0));
    [lia|].
  cbn. destruct (Z.ltb_spec (Etop ctx) em); [lia|]. reflexivity.
Qed.

(** Rounding to the default precision and truncating to an integer is
    exact on a number that is an integer of at most 28 digits:
    [C * 10^e = K] with [0 ≤ K < 10^28]. *)
Lemma fix_to_int_exact (s : bool) (C e K : Z) :
  0 ≤ C → 0 ≤ K < 10 ^ 28 →
  C * 10 ^ Z.max 0 e = K * 10 ^ Z.max 0 (- e) →
  ∃ p, _fix DefaultContext {| _sign := s; _int := C; _exp := e |} = Some p
       ∧ to_int p = (if s then -1 else 1) * K.
Proof.
  intros HC [HK0 HK] Heq.
  destruct (Z.eq_dec C 0) as [->|HCne].
  { (* a zero coefficient *)
    assert (K = 0) as ->.
    { pose proof (pow10_pos (Z.max 0 (- e)) ltac:(lia)). nia. }
    eexists. split; [reflexivity|]. unfold to_int. cbn [_sign _int _exp].
    destruct (Z.leb_spec 0 (Z.min (Z.max e (Etiny DefaultContext))
                                  (Emax DefaultContext)));
      [by destruct s|].
    rewrite Z.div_0_l; [by destruct s|]. apply Z.pow_nonzero; lia. }
  assert (HCpos : 0 < C) by lia.
  destruct (ndigits_spec C HCpos) as (Hn1 & Hnlo & Hnhi).
  set (n := ndigits C) in *.
  assert (HKpos : 0 < K).
  { pose proof (pow10_pos (Z.max 0 e) ltac:(lia)).
    pose proof (pow10_pos (Z.max 0 (- e)) ltac:(lia)). nia. }
  (* the number lies in [1, 10^28): between 1 and 28 digits before the
     point *)
  assert (Hrange : 1 ≤ n + e ≤ 28).
  { destruct (Z.le_gt_cases 0 e) as [He|He].
    - rewrite Z.max_r, Z.max_l, Z.pow_0_r, Z.mul_1_r in Heq by lia.
      split; [lia|].
      assert (10 ^ (n - 1 + e) < 10 ^ 28); [|apply pow10_lt_inv in H; lia].
      rewrite Z.pow_add_r by lia.
      pose proof (pow10_pos e He). nia.
    - rewrite Z.max_l, Z.max_r, Z.pow_0_r, Z.mul_1_r in Heq by lia.
      pose proof (pow10_pos (- e) ltac:(lia)). split.
      + assert (10 ^ (- e) < 10 ^ n); [nia|].
        apply pow10_lt_inv in H0; lia.
      + assert (10 ^ (n - 1) < 10 ^ (28 + - e)).
        { rewrite Z.pow_add_r by lia. nia. }
        apply pow10_lt_inv in H0; lia. }
  destruct (Z.le_gt_cases (n + e - 28) e) as [Hfit|Hlong].
  - (* no digit is dropped *)
    exists {| _sign := s; _int := C; _exp := e |}. split.
    + apply fix_fits; unfold Etiny, Etop, DefaultContext;
        cbn [_int _exp prec Emin Emax]; fold n; lia.
    + unfold to_int. cbn [_sign _int _exp].
      destruct (Z.leb_spec 0 e) as [He|He].
      * rewrite Z.max_r, Z.max_l, Z.pow_0_r, Z.mul_1_r in Heq by lia.
        rewrite <- Heq. destruct s; lia.
      * rewrite Z.max_l, Z.max_r, Z.pow_0_r, Z.mul_1_r in Heq by lia.
        rewrite Heq, Z.div_mul; [done|]. apply Z.pow_nonzero; lia.
  - (* the digits beyond the 28th are zeros of the fraction *)
    assert (He : e < 0) by lia.
    rewrite Z.max_l, Z.max_r, Z.pow_0_r, Z.mul_1_r in Heq by lia.
    assert (Hsplit : 10 ^ (- e) = 10 ^ (n - 28) * 10 ^ (28 - n - e)).
    { rewrite (pow10_split (n - 28) (- e)) by lia. do 2 f_equal. lia. }
    pose proof (pow10_pos (n - 28) ltac:(lia)) as Hp1.
    pose proof (pow10_pos (28 - n - e) ltac:(lia)) as Hp2.
    assert (HCq : C = K * 10 ^ (28 - n - e) * 10 ^ (n - 28)).
    { rewrite Heq, Hsplit. lia. }
    eexists. split.
    + apply fix_drops_zeros; unfold Etiny, Etop, DefaultContext;
        cbn [_int _exp prec Emin Emax]; fold n; try lia.
      rewrite HCq. apply Z.mod_mul. lia.
    + unfold to_int. cbn [_sign _int _exp prec DefaultContext]. fold n.
      replace (C / 10 ^ (n - 28)) with (K * 10 ^ (28 - n - e))
        by (apply Z.div_unique_exact; lia).
      destruct (Z.leb_spec 0 (n + e - 28)) as [Hz|Hz].
      * replace (28 - n - e) with 0 by lia.
        replace (n + e - 28) with 0 by lia. rewrite !Z.pow_0_r.
        destruct s; lia.
      * replace (- (n + e - 28)) with (28 - n - e) by lia.
        rewrite Z.div_mul by lia. reflexivity.
Qed.

End DecimalFacts.

(** ** Amounts *)

Lemma of_literal_nonneg (i : Decimal.int) (f : Decimal.uint) (e : Z) :
  0 ≤ decimal._int (decimal.of_literal i f e).
Proof.
  unfold decimal.of_literal. destruct i; cbn; unfold Z.of_uint;
    apply N2Z.is_nonneg.
Qed.

(** [int(d * coin)] is exact for a [Decimal] whose multiple is an integer
    of at most 28 digits. *)
Lemma decimal_to_smallest_unit_exact (coin : Z) (d : decimal.Decimal)
    (k : Z) :
  0 ≤ decimal._int d →
  scales_to coin (VDecimal d) k → Z.abs k < 10 ^ 28 →
  to_smallest_unit coin (VDecimal d) = Ok k.
Proof.
  intros Hint Hk Hbound. cbn in Hk. unfold signed in Hk.
  pose proof (pow10_pos (Z.max 0 (decimal._exp d)) ltac:(lia)) as HA.
  pose proof (pow10_pos (Z.max 0 (- decimal._exp d)) ltac:(lia)) as HB.
  destruct (fix_to_int_exact
              (xorb (decimal._sign d) (coin <? 0))
              (decimal._int d * Z.abs coin) (decimal._exp d) (Z.abs k))
    as (p & Hfix & Hp).
  - lia.
  - lia.
  - apply (f_equal Z.abs) in Hk.
    rewrite !Z.abs_mul in Hk.
    rewrite (Z.abs_eq (10 ^ _)), (Z.abs_eq (10 ^ Z.max 0 (- _))) in Hk
      by lia.
    rewrite <- Hk. f_equal. f_equal.
    rewrite (Z.abs_eq (decimal._int d)) by lia.
    destruct (decimal._sign d); cbn; lia.
  - unfold to_smallest_unit, mul_int, decimal.mul, decimal.of_int.
    cbn [decimal._sign decimal._int decimal._exp].
    rewrite Z.add_0_r, Hfix. cbn. f_equal. rewrite Hp.
    destruct (decimal._sign d), (Z.ltb_spec coin 0); cbn [xorb]; nia.
Qed.

(** The same for any number literal of the wire: an integer literal is
    multiplied as an integer, of any size; a literal with a fraction or an
    exponent goes through [Decimal]. *)
Lemma to_smallest_unit_exact (coin : Z) (n : Decimal.decimal) (k : Z) :
  scales_to coin (loads_number n) k → Z.abs k < 10 ^ 28 →
  to_smallest_unit coin (loads_number n) = Ok k.
Proof.
  destruct n as [i f|i f e]; [destruct f|]; cbn [loads_number];
    try (apply decimal_to_smallest_unit_exact, of_literal_nonneg).
  intros <- _. reflexivity.
Qed.

Lemma mapR_Forall2 {A B} (f : A → result B) (l : list A) (l' : list B) :
  Forall2 (λ a b, f a = Ok b) l l' → mapR f l = Ok l'.
Proof.
  induction 1 as [|a b l l' Hab _ IH]; cbn; [done|]. by rewrite Hab, IH.
Qed.

Section ListUnspent.
Context `{Core}.

(** One entry: the record the loop body makes of it. *)
Lemma listunspent_entry_exact (e : value) (n : Decimal.decimal) (k : Z) :
  unspent_entry e n →
  scales_to COIN (loads_number n) k → Z.abs k < 10 ^ 28 →
  ∃ rec, listunspent_entry e = Ok rec
         ∧ getitem rec "amount" = Ok (VInt k).
Proof.
  intros (m & t & h & vo & a & s & b & -> & Ht & Hh & Hvo & Ho & Ha & Haa
          & Hs & Hb & Hsc & Hn) Hk Hbound.
  eexists. split.
  - unfold listunspent_entry, construct. cbn.
    rewrite Ht. cbn. rewrite Hh. cbn. rewrite Hvo. cbn. rewrite Ho. cbn.
    rewrite lookup_insert_ne, Ha by done. cbn. rewrite Haa. cbn.
    rewrite !lookup_insert_ne, Hs by done. cbn. rewrite Hb. cbn.
    rewrite Hsc. cbn.
    rewrite !lookup_insert_ne, Hn by done. cbn.
    rewrite (to_smallest_unit_exact _ _ _ Hk Hbound). cbn. reflexivity.
  - cbn. by rewrite lookup_insert_eq.
Qed.

(** All entries of a result. *)
Lemma listunspent_entries_exact (items : list value)
    (amounts : list (Decimal.decimal * Z)) :
  Forall2 (λ e nk, unspent_entry e nk.1
                   ∧ scales_to COIN (loads_number nk.1) nk.2
                   ∧ Z.abs nk.2 < 10 ^ 28)
          items amounts →
  ∃ recs,
    Forall2 (λ e rec, listunspent_entry e = Ok rec) items recs
    ∧ Forall2 (λ rec nk, getitem rec "amount" = Ok (VInt nk.2))
              recs amounts.
Proof.
  induction 1 as [|e nk items amounts (He & Hk & Hb) _ IH].
  - exists []. split; constructor.
  - destruct IH as (recs & Hr & Ha).
    destruct (listunspent_entry_exact e nk.1 nk.2 He Hk Hb)
      as (rec & Hrec & Hamt).
    exists (rec :: recs). split; by constructor.
Qed.

(** C1 (amended). For every [listunspent] result whose entries carry a
    number literal as [amount] that, multiplied by [COIN], is exactly an
    integer of at most 28 decimal digits, the records returned have that
    integer as [amount]: the literal is read as a [Decimal] or an
    integer, never as a binary float. *)
Theorem listunspent_amount_exact (minconf maxconf : Z)
    (addrs : option (list value)) (p p' : BaseProxy)
    (items : list value) (amounts : list (Decimal.decimal * Z)) :
  listunspent_request minconf maxconf addrs p = (Ok (VList items), p') →
  Forall2 (λ e nk, unspent_entry e nk.1
                   ∧ scales_to COIN (loads_number nk.1) nk.2
                   ∧ Z.abs nk.2 < 10 ^ 28)
          items amounts →
  ∃ recs,
    listunspent minconf maxconf addrs p = (Ok (VList recs), p')
    ∧ Forall2 (λ rec nk, getitem rec "amount" = Ok (VInt nk.2))
              recs amounts.
Proof.
  intros Hreq Hitems.
  pose proof (listunspent_entries_exact _ _ Hitems) as Hrecs.
  destruct Hrecs as (recs & Hr & Ha). exists recs. split; [|exact Ha].
  unfold listunspent. unfold mbind at 1, M_bind. rewrite Hreq.
  unfold lift. cbn. by rewrite (mapR_Forall2 _ _ _ Hr).
Qed.

End ListUnspent.

Lemma listunspent_amount_exact_witness :
  ∃ recs,
    listunspent (H := accepting_core) 0 9999999 None
        (fresh_proxy [reply (WArray [unspent_wire lit_0_0005])])
      = (Ok (VList recs),
         (listunspent_request (H := accepting_core) 0 9999999 None
            (fresh_proxy [reply (WArray [unspent_wire lit_0_0005])])).2)
    ∧ Forall2 (λ rec nk, getitem rec "amount" = Ok (VInt nk.2))
              recs [(lit_0_0005, 50000)].
Proof.
  apply (listunspent_amount_exact (H := accepting_core) 0 9999999 None
           (fresh_proxy [reply (WArray [unspent_wire lit_0_0005])]) _
           [loads (unspent_wire lit_0_0005)] [(lit_0_0005, 50000)]).
  - reflexivity.
  - constructor; [|constructor]. split; [|split].
    + unfold unspent_entry. eexists _, _, _, _, _, _, _.
      repeat split; reflexivity.
    + reflexivity.
    + reflexivity.
Defined.

(** C1 as stated. Without the bound the claim fails: the amount
    1000000000000000000000.00000001 is a whole number of hundred-millionths,
    10^29 + 1 of them, and [listunspent] returns 10^29, the product rounded
    to the 28 digits of the decimal context. *)
Lemma listunspent_exact_fails_beyond_precision :
  ¬ listunspent_exact_at_any_size.
Proof.
  intros Hclaim.
  destruct (Hclaim accepting_core 0 9999999 None
              (fresh_proxy [reply (WArray [unspent_wire lit_30_digits])])
              (listunspent_request (H := accepting_core) 0 9999999 None
                 (fresh_proxy
                    [reply (WArray [unspent_wire lit_30_digits])])).2
              [loads (unspent_wire lit_30_digits)]
              [(lit_30_digits, 10 ^ 29 + 1)])
    as (recs & Hl & Hamt).
  - reflexivity.
  - constructor; [|constructor]. split.
    + unfold unspent_entry. eexists _, _, _, _, _, _, _.
      repeat split; reflexivity.
    + reflexivity.
  - vm_compute in Hl. injection Hl as <-.
    inversion Hamt as [|rec nk recs' amts Hrec Hrest]; subst.
    vm_compute in Hrec. discriminate.
Qed.

(** What [listunspent] returns on that amount. *)
Lemma listunspent_rounds_30_digits :
  to_smallest_unit (COIN (Core := accepting_core))
                   (loads_number lit_30_digits) = Ok (10 ^ 29)
  ∧ scales_to (COIN (Core := accepting_core)) (loads_number lit_30_digits)
              (10 ^ 29 + 1).
Proof. split; reflexivity. Qed.

(** ** Hexadecimal text *)

Lemma hexchar_hexval (x : byte) :
  binascii.hexval (binascii.hexchar (Byte.to_N x / 16))
    = Some (Byte.to_N x / 16)%N
  ∧ binascii.hexval (binascii.hexchar (Byte.to_N x mod 16))
      = Some (Byte.to_N x mod 16)%N
  ∧ Byte.of_N (16 * (Byte.to_N x / 16) + Byte.to_N x mod 16) = Some x.
Proof. destruct x; vm_compute; done. Qed.

Lemma binascii_unhexlify_hexlify (b : list byte) :
  binascii.unhexlify (binascii.hexlify b) = Some b.
Proof.
  induction b as [|x b IH]; [reflexivity|].
  destruct (hexchar_hexval x) as (Hhi & Hlo & Hx).
  cbn [binascii.hexlify binascii.unhexlify].
  rewrite Hhi. cbn. rewrite Hlo. cbn. rewrite Hx. cbn.
  rewrite IH. reflexivity.
Qed.

(** X1. [unhexlify] undoes [hexlify]: the text [hexlify] makes of a byte
    string decodes, and to that byte string. *)
Theorem unhexlify_hexlify (b : list byte) :
  unhexlify (VStr (hexlify b)) = Ok b.
Proof.
  unfold unhexlify, hexlify. by rewrite binascii_unhexlify_hexlify.
Qed.

Lemma hexval_lt_16 (a : ascii) (n : N) :
  binascii.hexval a = Some n → (n < 16)%N.
Proof.
  unfold binascii.hexval.
  repeat match goal with
         | |- context [if ?c then _ else _] => destruct c eqn:?
         end; intros [= <-];
    repeat match goal with
           | Hc : _ && _ = true |- _ => apply andb_prop in Hc as [? ?]
           | Hc : (_ <=? _)%N = true |- _ => apply N.leb_le in Hc
           end; lia.
Qed.

Lemma binascii_unhexlify_spec (n : nat) (s : string) :
  (String.length s ≤ n)%nat →
  match binascii.unhexlify s with
  | Some b =>
      String.length s = (2 * List.length b)%nat
      ∧ Forall (λ a, is_Some (binascii.hexval a)) (list_ascii_of_string s)
  | None =>
      Nat.Odd (String.length s)
      ∨ Exists (λ a, binascii.hexval a = None) (list_ascii_of_string s)
  end.
Proof.
  revert s. induction n as [|n IH]; intros s Hlen.
  - destruct s; [|cbn in Hlen; lia]. cbn. split; [done|constructor].
  - destruct s as [|a [|b s]].
    + cbn. split; [done|constructor].
    + cbn. left. by exists 0%nat.
    + cbn [binascii.unhexlify].
      destruct (binascii.hexval a) as [hi|] eqn:Ha; cbn;
        [|right; apply Exists_cons; by left].
      destruct (binascii.hexval b) as [lo|] eqn:Hb; cbn;
        [|right; apply Exists_cons; right; apply Exists_cons; by left].
      destruct (Byte.of_N (16 * hi + lo)) as [x|] eqn:Hx; cbn.
      2:{ apply Byte.of_N_None_iff in Hx.
          apply hexval_lt_16 in Ha, Hb. lia. }
      specialize (IH s). cbn in Hlen.
      destruct (binascii.unhexlify s) as [bs|]; cbn.
      * destruct IH as [Hl Hd]; [lia|]. split; [cbn; lia|].
        apply Forall_cons; split; [by rewrite Ha|].
        apply Forall_cons; split; [by rewrite Hb|done].
      * destruct IH as [[k Hk]|Hex]; [lia| |].
        -- left. exists (S k). lia.
        -- right. by do 2 (apply Exists_cons; right).
Qed.

(** X2. [unhexlify] returns exactly on a string of even length made of
    hexadecimal digits, and then one byte for every two characters; on any
    other string it raises [binascii.Error], and on a value that is no
    string [AttributeError], which has no [encode]. *)
Theorem unhexlify_returns_iff (h : value) :
  match unhexlify h with
  | Ok b =>
      ∃ s, h = VStr s
           ∧ String.length s = (2 * List.length b)%nat
           ∧ Forall (λ a, is_Some (binascii.hexval a))
                    (list_ascii_of_string s)
  | Raise e =>
      match h with
      | VStr s =>
          e = BinasciiError
          ∧ (Nat.Odd (String.length s)
             ∨ Exists (λ a, binascii.hexval a = None)
                      (list_ascii_of_string s))
      | _ => e = AttributeError
      end
  end.
Proof.
  destruct h; try reflexivity. cbn.
  pose proof (binascii_unhexlify_spec (String.length s) s (le_n _)) as Hs.
  destruct (binascii.unhexlify s) as [b|]; [|done].
  exists s. by destruct Hs.
Qed.

(** ** The table of error classes *)

(** X3. The table holds a class under a code exactly when the code is that
    class's [RPC_ERROR_CODE]: every decorated subclass is registered, under
    its own code, no two share a code, and the base class is not in the
    table. *)
Theorem SUBCLS_BY_CODE_registered (c : Z) (cls : rpc_class) :
  SUBCLS_BY_CODE !! c = Some cls ↔ RPC_ERROR_CODE cls = Some c.
Proof.
  split.
  - unfold SUBCLS_BY_CODE.
    cbn [foldl _register_subcls RPC_ERROR_CODE].
    repeat (rewrite lookup_insert; case_decide;
            [subst c; by intros [= <-]|]).
    by rewrite lookup_empty.
  - destruct cls; cbn; intros [= <-]; reflexivity.
Qed.

(** ** Error members of a response *)

Lemma raise_JSONRPCError_raises {A} (err : value) :
  ∃ e, @raise_JSONRPCError A err = Raise e.
Proof.
  unfold raise_JSONRPCError. destruct (JSONRPCError_new _ _); eauto.
Qed.

Lemma raise_JSONRPCError_RPCError {A} (err d : value) (cls : rpc_class) :
  @raise_JSONRPCError A err = Raise (RPCError cls d) →
  d = err ∧ ∃ dm, err = VDict dm ∧ is_Some (dm !! "code")
                  ∧ is_Some (dm !! "message").
Proof.
  unfold raise_JSONRPCError, JSONRPCError_new. cbn.
  destruct err; cbn; try discriminate.
  destruct (m !! "code") as [code|] eqn:Hc; cbn; [|discriminate].
  assert (Hget : (∃ cls', subcls_get code JSONRPCError = Ok cls')
                 ∨ subcls_get code JSONRPCError = Raise TypeError)
    by (destruct code; cbn; eauto).
  destruct Hget as [[cls' ->]| ->]; cbn; [|discriminate].
  destruct (m !! "message") as [msg|] eqn:Hm; cbn; [|discriminate].
  intros [= -> <-]. split; [done|]. exists m. eauto.
Qed.

(** X4. A response whose [error] member is not null never yields a
    result, whatever else it carries. What [_call] raises is an RPC error
    only when the member is a dictionary with a [code] and a [message], and
    then it carries that dictionary; a dictionary without [code] gives
    [KeyError], and a member that is no dictionary (a string, say)
    [TypeError]. *)
Theorem check_response_error_never_returns (m : gmap string value)
    (err : value) :
  m !! "error" = Some err → err ≠ VNone →
  (∃ e, check_response (VDict m) = Raise e)
  ∧ (∀ cls d, check_response (VDict m) = Raise (RPCError cls d) →
       d = err ∧ ∃ dm, err = VDict dm ∧ is_Some (dm !! "code")
                       ∧ is_Some (dm !! "message"))
  ∧ (∀ dm, err = VDict dm → dm !! "code" = None →
       check_response (VDict m) = Raise (KeyError "code"))
  ∧ ((∀ dm, err ≠ VDict dm) →
       check_response (VDict m) = Raise TypeError).
Proof.
  intros Hm Hne. rewrite (check_response_error m err Hm Hne).
  split; [apply raise_JSONRPCError_raises|].
  split; [intros cls d; apply raise_JSONRPCError_RPCError|].
  split.
  - intros dm -> Hc. unfold raise_JSONRPCError, JSONRPCError_new. cbn.
    by rewrite Hc.
  - intros Hnd. destruct err; try reflexivity. by destruct (Hnd m0).
Qed.

Lemma check_response_error_never_returns_witness :
  check_response (VDict (<["result" := VInt 7]>
                           (<["error" := VStr "busy"]> ∅)))
    = Raise TypeError.
Proof.
  refine (proj2 (proj2 (proj2
    (check_response_error_never_returns
       (<["result" := VInt 7]> (<["error" := VStr "busy"]> ∅))
       (VStr "busy") _ _))) _).
  - reflexivity.
  - discriminate.
  - intros dm. discriminate.
Defined.

(** X5. [_call] returns exactly on a response that is a dictionary whose
    [error] member is null and that has a [result] member, and what it
    returns is that member; on every other response it raises. *)
Theorem check_response_returns_iff (response r : value) :
  check_response response = Ok r
  ↔ ∃ m, response = VDict m ∧ m !! "error" = Some VNone
         ∧ m !! "result" = Some r.
Proof.
  split.
  - intros Hr. unfold check_response in Hr.
    apply result_bind_Ok in Hr as (err & Herr & Hr).
    apply getitem_Ok in Herr as (m & -> & Herr).
    exists m. split; [done|].
    destruct (@raise_JSONRPCError_raises value err) as [e He].
    destruct err; try (rewrite He in Hr; discriminate Hr).
    split; [done|]. cbn in Hr.
    destruct (m !! "result") as [x|] eqn:Hx.
    + rewrite bool_decide_eq_true_2 in Hr by eauto. by injection Hr as <-.
    + rewrite bool_decide_eq_false_2 in Hr by (by intros [? ?]).
      discriminate Hr.
  - intros (m & -> & He & Hr). by apply check_response_result.
Qed.

(** ** The effect of [_call] on the session *)

Lemma call_on_reply (service_name : string) (args : list value)
    (p : BaseProxy) (r : http_response) (rest : list http_response) :
  forallb serializable args = true →
  pending (__conn p) = r :: rest →
  _call service_name args p
    = (match r with
       | Body w => check_response (loads w)
       | NoResponse =>
           raise_JSONRPCError
             (error_dict (-342) "missing HTTP response from server")
       | Garbled => Raise ValueError
       end, after_request p service_name args rest).
Proof.
  intros Hs Hp.
  unfold _call, mbind, M_bind, next_id, post, _get_response, lift,
    after_request.
  cbn. rewrite Hs. cbn. rewrite Hp.
  destruct r; cbn; reflexivity.
Qed.

Lemma call_id_count (service_name : string) (args : list value)
    (p : BaseProxy) :
  __id_count (_call service_name args p).2 = __id_count p + 1
  ∧ __service_url (_call service_name args p).2 = __service_url p.
Proof.
  unfold _call, mbind, M_bind, next_id, post, _get_response, lift. cbn.
  destruct (forallb serializable args); cbn; [|done].
  destruct (pending (__conn p)) as [|r rest]; cbn; [done|].
  destruct r; cbn; [|by destruct (check_response (loads w))|done].
  by destruct (raise_JSONRPCError _).
Qed.

Lemma call_sent (service_name : string) (args : list value)
    (p : BaseProxy) :
  sent (__conn (_call service_name args p).2) = sent (__conn p)
  ∨ sent (__conn (_call service_name args p).2)
    = sent (__conn p) ++ [{| method := service_name; req_params := args;
                             req_id := __id_count p + 1 |}].
Proof.
  unfold _call, mbind, M_bind, next_id, post, _get_response, lift. cbn.
  destruct (forallb serializable args); cbn; [|by left].
  destruct (pending (__conn p)) as [|r rest]; cbn; [by right|].
  destruct r; cbn; [|by destruct (check_response (loads w)); right
                    |by right].
  destruct (raise_JSONRPCError _); by right.
Qed.

Lemma call_pending (service_name : string) (args : list value)
    (p : BaseProxy) :
  pending (__conn (_call service_name args p).2) = pending (__conn p)
  ∨ ∃ r, pending (__conn p)
         = r :: pending (__conn (_call service_name args p).2).
Proof.
  unfold _call, mbind, M_bind, next_id, post, _get_response, lift. cbn.
  destruct (forallb serializable args); cbn; [|by left].
  destruct (pending (__conn p)) as [|r rest] eqn:Hp; cbn; [by left|].
  destruct r; cbn; [|destruct (check_response (loads w)); cbn; eauto
                    |eauto].
  destruct (raise_JSONRPCError _); cbn; eauto.
Qed.

(** X6. Every [_call] uses up one identifier, whether it returns or
    raises. It posts at most one request, which carries the method, the
    arguments and the new identifier, and reads at most one response; the
    service URL is never touched. *)
Theorem call_uses_one_id (service_name : string) (args : list value)
    (p : BaseProxy) :
  let p' := (_call service_name args p).2 in
  __id_count p' = __id_count p + 1
  ∧ __service_url p' = __service_url p
  ∧ (sent (__conn p') = sent (__conn p)
     ∨ sent (__conn p')
       = sent (__conn p) ++ [{| method := service_name; req_params := args;
                                req_id := __id_count p + 1 |}])
  ∧ (pending (__conn p') = pending (__conn p)
     ∨ ∃ r, pending (__conn p) = r :: pending (__conn p')).
Proof.
  cbv zeta. destruct (call_id_count service_name args p) as [Hid Hurl].
  split; [exact Hid|]. split; [exact Hurl|].
  split; [apply call_sent | apply call_pending].
Qed.

Lemma call_session_ok (service_name : string) (args : list value)
    (p : BaseProxy) :
  session_ok p → session_ok (_call service_name args p).2.
Proof.
  intros [Hinc Hle].
  destruct (call_id_count service_name args p) as [Hid _].
  pose proof (call_sent service_name args p) as Hsent.
  unfold session_ok. rewrite Hid.
  destruct Hsent as [-> | ->].
  - split; [done|]. intros i ri Hi. specialize (Hle i ri Hi). lia.
  - split.
    + intros i j ri rj Hi Hj Hij.
      apply lookup_app_Some in Hi, Hj.
      destruct Hi as [Hi|[Hil Hi]], Hj as [Hj|[Hjl Hj]].
      * by eapply Hinc.
      * apply list_lookup_singleton_Some in Hj as [_ <-]. cbn.
        specialize (Hle i ri Hi). lia.
      * apply lookup_lt_Some in Hj. lia.
      * apply list_lookup_singleton_Some in Hi as [Hi0 _].
        apply list_lookup_singleton_Some in Hj as [Hj0 _]. lia.
    + intros i ri Hi. apply lookup_app_Some in Hi as [Hi|[_ Hi]].
      * specialize (Hle i ri Hi). lia.
      * apply list_lookup_singleton_Some in Hi as [_ <-]. cbn. lia.
Qed.

(** X7. Request identifiers are never reused. Over any series of calls,
    failed ones included, a session whose requests carry increasing
    identifiers bounded by the counter stays such a session; the counter
    grows by the number of calls made, and no two requests posted carry
    the same identifier. *)
Theorem session_ids_never_reused (calls : list (string * list value))
    (p : BaseProxy) :
  session_ok p →
  session_ok (after_calls calls p)
  ∧ __id_count (after_calls calls p)
    = __id_count p + Z.of_nat (List.length calls)
  ∧ NoDup (req_id <$> sent (__conn (after_calls calls p))).
Proof.
  intros Hok.
  assert (Hstep : session_ok (after_calls calls p)
                  ∧ __id_count (after_calls calls p)
                    = __id_count p + Z.of_nat (List.length calls)).
  { revert p Hok. unfold after_calls.
    induction calls as [|[s a] calls IH]; intros p Hok.
    - cbn. split; [done|lia].
    - cbn [foldl fst snd List.length].
      destruct (IH _ (call_session_ok s a p Hok)) as [Hok' Hid'].
      split; [done|]. rewrite Hid'.
      destruct (call_id_count s a p) as [-> _]. lia. }
  destruct Hstep as [Hok' Hid']. split; [done|]. split; [done|].
  apply NoDup_alt. intros i j z Hi Hj.
  apply list_lookup_fmap_Some in Hi as (ri & -> & Hi).
  apply list_lookup_fmap_Some in Hj as (rj & Hz & Hj).
  destruct Hok' as [Hinc _].
  destruct (Nat.lt_trichotomy i j) as [Hlt|[->|Hlt]]; [|done|].
  - specialize (Hinc i j ri rj Hi Hj Hlt). lia.
  - specialize (Hinc j i rj ri Hj Hi Hlt). lia.
Qed.

Lemma session_ids_never_reused_witness :
  __id_count (after_calls [("getinfo", []); ("getbalance", [VBytes []]);
                           ("getblockcount", [])]
                          (fresh_proxy [Garbled])) = 3.
Proof.
  refine (proj1 (proj2 (session_ids_never_reused
            [("getinfo", []); ("getbalance", [VBytes []]);
             ("getblockcount", [])]
            (fresh_proxy [Garbled]) _))).
  split; intros i; intros; by destruct i.
Defined.

(** X8. Arguments that [json.dumps] cannot encode (a byte string not yet
    turned into hexadecimal, a [Decimal], an object of [zcash.core]) make
    [_call] raise [TypeError] before anything is posted or read: the
    connection is as it was, and only the identifier is used up. *)
Theorem call_unserializable_sends_nothing (service_name : string)
    (args : list value) (p : BaseProxy) :
  forallb serializable args = false →
  (_call service_name args p).1 = Raise TypeError
  ∧ __conn (_call service_name args p).2 = __conn p
  ∧ __id_count (_call service_name args p).2 = __id_count p + 1.
Proof.
  intros Hs.
  unfold _call, mbind, M_bind, next_id, post, _get_response, lift. cbn.
  by rewrite Hs.
Qed.

Lemma call_unserializable_sends_nothing_witness :
  (_call "getrawtransaction" [VBytes [Byte.x00]]
         (fresh_proxy [reply WNull])).1 = Raise TypeError.
Proof.
  exact (proj1 (call_unserializable_sends_nothing "getrawtransaction"
                  [VBytes [Byte.x00]] (fresh_proxy [reply WNull])
                  eq_refl)).
Defined.

(** ** Replies and errors of the node *)

Lemma call_reply (service_name : string) (args : list value)
    (p : BaseProxy) (w : wire) (rest : list http_response) :
  forallb serializable args = true →
  pending (__conn p) = reply w :: rest →
  _call service_name args p
    = (Ok (loads w), after_request p service_name args rest).
Proof.
  intros Hs Hp. rewrite (call_on_reply _ _ _ _ _ Hs Hp).
  unfold reply. cbn [loads foldl].
  erewrite check_response_result; [reflexivity| |].
  - rewrite lookup_insert_ne by discriminate. by rewrite lookup_insert_eq.
  - do 2 (rewrite lookup_insert_ne by discriminate).
    by rewrite lookup_insert_eq.
Qed.

Lemma error_reply_dict (c : Z) (msg : string) :
  VDict (<["message" := VStr msg]> (<["code" := VInt c]> ∅))
    = error_dict c msg.
Proof. unfold error_dict. by rewrite insert_insert_ne by discriminate. Qed.

Lemma call_error_reply (service_name : string) (args : list value)
    (p : BaseProxy) (c : Decimal.int) (msg : string)
    (rest : list http_response) :
  forallb serializable args = true →
  pending (__conn p) = error_reply c msg :: rest →
  _call service_name args p
    = (Raise (RPCError (kind_of_code (Z.of_int c))
                       (error_dict (Z.of_int c) msg)),
       after_request p service_name args rest).
Proof.
  intros Hs Hp. rewrite (call_on_reply _ _ _ _ _ Hs Hp).
  unfold error_reply. cbn [loads foldl loads_number].
  erewrite check_response_error; cycle 1.
  - rewrite lookup_insert_ne by discriminate. apply lookup_insert_eq.
  - discriminate.
  - unfold raise_JSONRPCError.
    erewrite (JSONRPCError_class_by_key _ (VInt (Z.of_int c)) (VStr msg)).
    + cbn. by rewrite error_reply_dict.
    + rewrite lookup_insert_ne by discriminate. apply lookup_insert_eq.
    + apply lookup_insert_eq.
Qed.

Lemma kind_of_code_eq (c : Z) (cls : rpc_class) :
  cls ≠ JSONRPCError →
  kind_of_code c = cls ↔ RPC_ERROR_CODE cls = Some c.
Proof.
  intros Hne. unfold kind_of_code.
  repeat match goal with
         | |- context [c =? ?k] =>
             destruct (Z.eqb_spec c k) as [->|?];
             [destruct cls; cbn; split; congruence|]
         end.
  destruct cls; cbn; split; congruence.
Qed.

Section NodeErrors.
Context `{Core}.

(** X9. An error of the node with code -5 (invalid address or key)
    reaches the caller of [getrawtransaction], [getblock],
    [getblockheader] and [gettransaction] as [IndexError]; an error with
    any other code reaches them as the RPC error of that code's class,
    carrying the node's code and message. *)
Theorem invalid_key_becomes_IndexError (c : Decimal.int) (msg : string)
    (rest : list http_response) (p : BaseProxy) (h : list byte)
    (verbose : bool) :
  pending (__conn p) = error_reply c msg :: rest →
  let raised : result value :=
    if bool_decide (Z.of_int c = -5) then Raise IndexError
    else Raise (RPCError (kind_of_code (Z.of_int c))
                         (error_dict (Z.of_int c) msg)) in
  (getrawtransaction h verbose p).1 = raised
  ∧ (getblock h p).1 = raised
  ∧ (getblockheader h verbose p).1 = raised
  ∧ (gettransaction h p).1 = raised.
Proof.
  intros Hp.
  assert (Hcls : bool_decide (kind_of_code (Z.of_int c)
                              = InvalidAddressOrKeyError)
                 = bool_decide (Z.of_int c = -5)).
  { apply bool_decide_ext. rewrite kind_of_code_eq by discriminate. cbn.
    split; [by intros [= ->] | by intros ->]. }
  unfold getrawtransaction, getblock, getblockheader, gettransaction,
    mbind, M_bind, except_rpc.
  pose proof (λ s a Ha, call_error_reply s a p c msg rest Ha Hp) as Hcall.
  rewrite !Hcall by reflexivity.
  rewrite Hcls. cbn. by destruct (bool_decide (Z.of_int c = -5)).
Qed.

(** X10. [getblockhash] translates a different code: an error of the node
    with code -8 (invalid parameter) becomes [IndexError], while one with
    code -5 reaches the caller as [InvalidAddressOrKeyError]. *)
Theorem getblockhash_invalid_parameter (c : Decimal.int) (msg : string)
    (rest : list http_response) (p : BaseProxy) (height : Z) :
  pending (__conn p) = error_reply c msg :: rest →
  (getblockhash (VInt height) p).1
    = (if bool_decide (Z.of_int c = -8) then Raise IndexError
       else Raise (RPCError (kind_of_code (Z.of_int c))
                            (error_dict (Z.of_int c) msg)))
  ∧ (Z.of_int c = -5 →
     (getblockhash (VInt height) p).1
       = Raise (RPCError InvalidAddressOrKeyError (error_dict (-5) msg))).
Proof.
  intros Hp.
  assert (Hcls : bool_decide (kind_of_code (Z.of_int c)
                              = InvalidParameterError)
                 = bool_decide (Z.of_int c = -8)).
  { apply bool_decide_ext. rewrite kind_of_code_eq by discriminate. cbn.
    split; [by intros [= ->] | by intros ->]. }
  assert (Hraised : (getblockhash (VInt height) p).1
    = (if bool_decide (Z.of_int c = -8) then Raise IndexError
       else Raise (RPCError (kind_of_code (Z.of_int c))
                            (error_dict (Z.of_int c) msg)))).
  { unfold getblockhash, mbind, M_bind, except_rpc.
    rewrite (call_error_reply _ [VInt height] _ _ _ _ eq_refl Hp).
    rewrite Hcls. by destruct (bool_decide (Z.of_int c = -8)). }
  split; [exact Hraised|].
  intros Hc. rewrite Hraised, Hc. reflexivity.
Qed.

End NodeErrors.

Lemma invalid_key_becomes_IndexError_witness :
  (@getblock accepting_core [Byte.x00; Byte.xff]
     (fresh_proxy [error_reply (Decimal.Neg (Decimal.D5 Decimal.Nil))
                               "Block not found"])).1
    = Raise IndexError.
Proof.
  exact (proj1 (proj2 (@invalid_key_becomes_IndexError accepting_core
           (Decimal.Neg (Decimal.D5 Decimal.Nil)) "Block not found" []
           (fresh_proxy [error_reply (Decimal.Neg (Decimal.D5 Decimal.Nil))
                                     "Block not found"])
           [Byte.x00; Byte.xff] false eq_refl))).
Defined.

Lemma getblockhash_invalid_parameter_witness :
  (getblockhash (VInt 99999999)
     (fresh_proxy [error_reply (Decimal.Neg (Decimal.D8 Decimal.Nil))
                               "Block height out of range"])).1
    = Raise IndexError.
Proof.
  exact (proj1 (getblockhash_invalid_parameter
           (Decimal.Neg (Decimal.D8 Decimal.Nil))
           "Block height out of range" []
           (fresh_proxy [error_reply (Decimal.Neg (Decimal.D8 Decimal.Nil))
                                     "Block height out of range"])
           99999999 eq_refl)).
Defined.

(** ** What the typed operations make of a reply *)

Lemma py_in_dict (k : string) (m : gmap string value) :
  py_in k (VDict m) = Ok (bool_decide (is_Some (m !! k))).
Proof. reflexivity. Qed.

Lemma lookup_is_Some_decide {A} (m : gmap string A) (k : string) :
  bool_decide (is_Some (m !! k)) = match m !! k with
                                   | Some _ => true
                                   | None => false
                                   end.
Proof.
  destruct (m !! k) eqn:E.
  - by rewrite bool_decide_eq_true_2.
  - rewrite bool_decide_eq_false_2; [done|]. by intros [? ?].
Qed.

Section Decoders.
Context `{Core}.

(** X11. The dictionary [getblockheader] returns for [verbose=True] has
    exactly the five keys [confirmations], [height], [mediantime],
    [nextblockhash] and [chainwork], whatever else the node's reply
    holds. The first three are the reply's values, [chainwork] is the
    reply's decoded to bytes, and [nextblockhash] is [None] exactly when
    the reply has none, the reversed bytes of the reply's otherwise. *)
Theorem getblockheader_verbose_fields (r v : value) :
  getblockheader_decode true r = Ok v →
  ∃ m m' cw w,
    r = VDict m ∧ v = VDict m'
    ∧ (∀ k, is_Some (m' !! k)
            ↔ k ∈ ["confirmations"; "height"; "mediantime";
                   "nextblockhash"; "chainwork"])
    ∧ m' !! "confirmations" = m !! "confirmations"
    ∧ m' !! "height" = m !! "height"
    ∧ m' !! "mediantime" = m !! "mediantime"
    ∧ m !! "chainwork" = Some cw ∧ core.x cw = Ok w
    ∧ m' !! "chainwork" = Some (VBytes w)
    ∧ match m !! "nextblockhash" with
      | None => m' !! "nextblockhash" = Some VNone
      | Some h => ∃ l, lx h = Ok l
                       ∧ m' !! "nextblockhash" = Some (VBytes l)
      end.
Proof.
  unfold getblockheader_decode. intros Hd.
  destruct r as [ |b|z|d|c|s|l|m|b|cls args| |name];
    try discriminate Hd.
  { cbn in Hd. by destruct (is_infix _ _). }
  { cbn in Hd. by destruct (existsb _ l). }
  rewrite py_in_dict, lookup_is_Some_decide in Hd. cbn in Hd.
  assert (Hnb : ∃ nb,
    match m !! "nextblockhash" with
    | None => nb = VNone
    | Some h => ∃ l, lx h = Ok l ∧ nb = VBytes l
    end
    ∧ (confirmations ← getitem (VDict m) "confirmations";
       height ← getitem (VDict m) "height";
       mediantime ← getitem (VDict m) "mediantime";
       cw ← getitem (VDict m) "chainwork";
       chainwork ← core.x cw;
       Ok (VDict (<["confirmations" := confirmations]>
                 (<["height" := height]>
                 (<["mediantime" := mediantime]>
                 (<["nextblockhash" := nb]>
                 (<["chainwork" := VBytes chainwork]> ∅))))))) = Ok v).
  { destruct (m !! "nextblockhash") as [h|] eqn:Hn; cbn in Hd.
    - destruct (lx h) as [l|e] eqn:Hl; [|discriminate Hd].
      exists (VBytes l). split; [by exists l|exact Hd].
    - exists VNone. split; [done|exact Hd]. }
  destruct Hnb as (nb & Hnb & Hrest). clear Hd. cbn in Hrest.
  destruct (m !! "confirmations") as [cf|] eqn:Hcf; [|discriminate Hrest].
  destruct (m !! "height") as [ht|] eqn:Hht; [|discriminate Hrest].
  destruct (m !! "mediantime") as [mt|] eqn:Hmt; [|discriminate Hrest].
  destruct (m !! "chainwork") as [cw|] eqn:Hcw; [|discriminate Hrest].
  cbn in Hrest.
  destruct (core.x cw) as [w|e] eqn:Hw; [|discriminate Hrest].
  injection Hrest as <-.
  eexists m, _, cw, w. split; [reflexivity|]. split; [reflexivity|].
  split.
  { intros k. rewrite !lookup_insert_is_Some, lookup_empty.
    rewrite !elem_of_cons, elem_of_nil.
    split.
    - intros [->|[_ [->|[_ [->|[_ [->|[_ [->|[_ [? ?]]]]]]]]]]];
        [auto 10 ..|done].
    - intros [->|[->|[->|[->|[->|[]]]]]];
        repeat match goal with
               | |- ?a = ?a ∨ _ => by left
               | |- _ ∨ _ => right; split; [discriminate|]
               end. }
  repeat (split; [by repeat (rewrite lookup_insert_ne by discriminate);
                     rewrite ?lookup_insert_eq|]).
  destruct (m !! "nextblockhash") as [h|].
  - destruct Hnb as (l & Hl & ->). exists l. split; [done|].
    by repeat (rewrite lookup_insert_ne by discriminate);
       rewrite ?lookup_insert_eq.
  - subst nb. by repeat (rewrite lookup_insert_ne by discriminate);
       rewrite ?lookup_insert_eq.
Qed.

Lemma rescale_dict (key : string) (m : gmap string value) (v : value) :
  rescale key (VDict m) = Ok v →
  (m !! key = None ∧ v = VDict m)
  ∨ ∃ x z, m !! key = Some x ∧ to_smallest_unit COIN x = Ok z
           ∧ v = VDict (<[key := VInt z]> m).
Proof.
  unfold rescale. rewrite py_in_dict, lookup_is_Some_decide. cbn.
  destruct (m !! key) as [x|] eqn:Hk; cbn.
  - destruct (to_smallest_unit COIN x) as [z|e] eqn:Hz; cbn;
      [|discriminate].
    intros [= <-]. right. by exists x, z.
  - intros [= <-]. by left.
Qed.

Lemma getinfo_decode_dict (m : gmap string value) (v : value) :
  getinfo_decode (VDict m) = Ok v →
  ∃ m', v = VDict m'
    ∧ (∀ k, is_Some (m' !! k) ↔ is_Some (m !! k))
    ∧ (∀ k, k ≠ "balance" → k ≠ "paytxfee" → m' !! k = m !! k)
    ∧ (∀ k x, k ∈ ["balance"; "paytxfee"] → m !! k = Some x →
         ∃ z, to_smallest_unit COIN x = Ok z ∧ m' !! k = Some (VInt z))
    ∧ (m !! "balance" = None → m !! "paytxfee" = None → m' = m).
Proof.
  unfold getinfo_decode. intros Hd.
  apply result_bind_Ok in Hd as (r1 & H1 & H2).
  apply rescale_dict in H1.
  assert (∃ m1, r1 = VDict m1
    ∧ (∀ k, is_Some (m1 !! k) ↔ is_Some (m !! k))
    ∧ (∀ k, k ≠ "balance" → m1 !! k = m !! k)
    ∧ (∀ x, m !! "balance" = Some x →
         ∃ z, to_smallest_unit COIN x = Ok z
              ∧ m1 !! "balance" = Some (VInt z))
    ∧ (m !! "balance" = None → m1 = m)) as (m1 & -> & Hk1 & Ho1 & Hb1 & Hn1).
  { destruct H1 as [[Hn ->]|(x & z & Hx & Hz & ->)].
    - exists m. repeat split; try done. intros x Hx. congruence.
    - exists (<["balance" := VInt z]> m). split; [done|]. split; [|split].
      + intros k. rewrite lookup_insert_is_Some.
        split; [intros [<-|[_ ?]]; eauto | intros Hs].
        destruct (decide ("balance" = k)); auto.
      + intros k Hk. by rewrite lookup_insert_ne.
      + split.
        * intros x' Hx'. exists z. rewrite lookup_insert_eq.
          split; congruence.
        * congruence. }
  apply rescale_dict in H2.
  destruct H2 as [[Hn ->]|(x & z & Hx & Hz & ->)].
  - exists m1. split; [done|]. split; [done|]. split; [|split].
    + intros k Hb _. by apply Ho1.
    + intros k x Hin Hx.
      apply elem_of_cons in Hin as [->|Hin]; [by apply Hb1|].
      apply list_elem_of_singleton in Hin as ->.
      rewrite Ho1 in Hn by discriminate. congruence.
    + intros Hb _. by apply Hn1.
  - exists (<["paytxfee" := VInt z]> m1). split; [done|].
    split; [|split; [|split]].
    + intros k. rewrite lookup_insert_is_Some, Hk1.
      split; [intros [<-|[_ ?]]; [|done] | intros Hs].
      * rewrite <- Hk1. eauto.
      * destruct (decide ("paytxfee" = k)); auto.
    + intros k Hb Hp. rewrite lookup_insert_ne by done. by apply Ho1.
    + intros k x' Hin Hx'.
      apply elem_of_cons in Hin as [->|Hin].
      * rewrite lookup_insert_ne by discriminate. by apply Hb1.
      * apply list_elem_of_singleton in Hin as ->.
        rewrite Ho1 in Hx by discriminate.
        exists z. rewrite lookup_insert_eq. split; congruence.
    + intros _ Hp. rewrite Ho1 in Hx by discriminate. congruence.
Qed.

(** X12. [getinfo] converts [balance] and [paytxfee] and nothing else:
    the dictionary it returns has the keys of the node's reply, each
    other key with the reply's value, and each of the two that the reply
    has with its value in smallest units. A reply that has neither comes
    back as it is. *)
Theorem getinfo_converts_two_fields (p p' : BaseProxy) (w : wire)
    (rest : list http_response) (m : gmap string value) (v : value) :
  pending (__conn p) = reply w :: rest →
  loads w = VDict m →
  getinfo p = (Ok v, p') →
  ∃ m', v = VDict m'
    ∧ (∀ k, is_Some (m' !! k) ↔ is_Some (m !! k))
    ∧ (∀ k, k ≠ "balance" → k ≠ "paytxfee" → m' !! k = m !! k)
    ∧ (∀ k x, k ∈ ["balance"; "paytxfee"] → m !! k = Some x →
         ∃ z, to_smallest_unit COIN x = Ok z ∧ m' !! k = Some (VInt z))
    ∧ (m !! "balance" = None → m !! "paytxfee" = None → m' = m).
Proof.
  intros Hp Hw. unfold getinfo, mbind, M_bind, lift.
  rewrite (call_reply _ [] _ _ _ eq_refl Hp), Hw.
  intros [= Hd _]. by apply getinfo_decode_dict.
Qed.

Lemma signrawtransaction_decode_Ok (r v : value) :
  signrawtransaction_decode r = Ok v →
  ∃ m h b, r = VDict m ∧ m !! "hex" = Some h ∧ unhexlify h = Ok b
           ∧ v = VDict (delete "hex"
                          (<["tx" := VObject "CTransaction.deserialize"
                                             [VBytes b]]> m)).
Proof.
  unfold signrawtransaction_decode. intros Hd.
  apply result_bind_Ok in Hd as (h & Hh & Hd).
  apply getitem_Ok in Hh as (m & -> & Hh).
  apply result_bind_Ok in Hd as (b & Hb & Hd).
  apply result_bind_Ok in Hd as (tx & Htx & Hd).
  apply construct_Ok in Htx as [_ ->].
  cbn in Hd. rewrite lookup_insert_ne, Hh in Hd by discriminate.
  injection Hd as <-. by exists m, h, b.
Qed.

Lemma decode_drops_hex (r v : value) :
  signrawtransaction_decode r = Ok v ∨ fundrawtransaction_decode r = Ok v →
  getitem v "hex" = Raise (KeyError "hex")
  ∧ ∃ h b,
      getitem r "hex" = Ok h ∧ unhexlify h = Ok b
      ∧ getitem v "tx" = Ok (VObject "CTransaction.deserialize" [VBytes b])
      ∧ ∀ k, k ∉ ["hex"; "tx"; "fee"] → getitem v k = getitem r k.
Proof.
  intros [Hs|Hf].
  - apply signrawtransaction_decode_Ok in Hs as (m & h & b & -> & Hh & Hb & ->).
    cbn. rewrite lookup_delete_eq. split; [done|].
    exists h, b. rewrite Hh. split; [done|]. split; [done|].
    rewrite lookup_delete_ne, lookup_insert_eq by discriminate.
    split; [done|]. intros k Hk.
    rewrite lookup_delete_ne, lookup_insert_ne; [done|set_solver..].
  - unfold fundrawtransaction_decode in Hf.
    apply result_bind_Ok in Hf as (r1 & Hs & Hf).
    apply signrawtransaction_decode_Ok in Hs as (m & h & b & -> & Hh & Hb & ->).
    apply result_bind_Ok in Hf as (fee & _ & Hf).
    apply result_bind_Ok in Hf as (z & _ & Hf).
    cbn in Hf. injection Hf as <-. cbn.
    rewrite lookup_insert_ne, lookup_delete_eq by discriminate.
    split; [done|].
    exists h, b. rewrite Hh. split; [done|]. split; [done|].
    rewrite lookup_insert_ne, lookup_delete_ne, lookup_insert_eq
      by discriminate.
    split; [done|]. intros k Hk.
    rewrite lookup_insert_ne, lookup_delete_ne, lookup_insert_ne;
      [done|set_solver..].
Qed.

(** X13. What [signrawtransaction] and [fundrawtransaction] return has no
    [hex] entry: the decoded transaction is under [tx] and the
    hexadecimal text it was decoded from is deleted. Every entry of the
    reply other than [hex], [tx] and, for [fundrawtransaction], [fee]
    stays as the node sent it. *)
Theorem signed_and_funded_drop_hex `{Serialize} (tx : value)
    (args : list value) (include_watching : bool) (p p' : BaseProxy)
    (w : wire) (rest : list http_response) (v : value) :
  pending (__conn p) = reply w :: rest →
  forallb serializable args = true →
  signrawtransaction tx args p = (Ok v, p')
  ∨ fundrawtransaction tx include_watching p = (Ok v, p') →
  getitem v "hex" = Raise (KeyError "hex")
  ∧ ∃ h b,
      getitem (loads w) "hex" = Ok h ∧ unhexlify h = Ok b
      ∧ getitem v "tx" = Ok (VObject "CTransaction.deserialize" [VBytes b])
      ∧ ∀ k, k ∉ ["hex"; "tx"; "fee"] →
             getitem v k = getitem (loads w) k.
Proof.
  intros Hp Hargs Hv. apply decode_drops_hex.
  unfold signrawtransaction, fundrawtransaction, mbind, M_bind, lift in Hv.
  destruct (serialize tx) as [b|e]; [|by destruct Hv].
  rewrite !(λ s a Ha, call_reply s a p w rest Ha Hp) in Hv
    by (cbn; by rewrite ?Hargs).
  destruct Hv as [[= Hv _]|[= Hv _]]; auto.
Qed.

(** X14. An entry of [listunspent] keeps what the node sent beside the
    converted fields: the record has the entry's keys and [outpoint], and
    every key other than [outpoint], [address], [scriptPubKey] and
    [amount] with the entry's value, [txid] and [vout] among them. *)
Theorem listunspent_entry_keeps_fields (e rec : value) :
  listunspent_entry e = Ok rec →
  ∃ m m', e = VDict m ∧ rec = VDict m'
    ∧ (∀ k, is_Some (m' !! k) ↔ k = "outpoint" ∨ is_Some (m !! k))
    ∧ (∀ k, k ∉ ["outpoint"; "address"; "scriptPubKey"; "amount"] →
            m' !! k = m !! k)
    ∧ m' !! "txid" = m !! "txid" ∧ m' !! "vout" = m !! "vout".
Proof.
  unfold listunspent_entry. intros Hd.
  apply result_bind_Ok in Hd as (txid & Ht & Hd).
  apply getitem_Ok in Ht as (m & -> & Ht).
  apply result_bind_Ok in Hd as (h & _ & Hd).
  apply result_bind_Ok in Hd as (vout & Hv & Hd).
  apply result_bind_Ok in Hd as (o & _ & Hd).
  cbn in Hd. rewrite lookup_insert_ne in Hd by discriminate.
  destruct (m !! "address") as [a|] eqn:Ha; [|discriminate Hd].
  cbn in Hd.
  apply result_bind_Ok in Hd as (addr & _ & Hd). cbn in Hd.
  rewrite !lookup_insert_ne in Hd by discriminate.
  destruct (m !! "scriptPubKey") as [s|] eqn:Hs; [|discriminate Hd].
  cbn in Hd.
  apply result_bind_Ok in Hd as (b & _ & Hd).
  apply result_bind_Ok in Hd as (script & _ & Hd). cbn in Hd.
  rewrite !lookup_insert_ne in Hd by discriminate.
  destruct (m !! "amount") as [am|] eqn:Ham; [|discriminate Hd].
  cbn in Hd.
  apply result_bind_Ok in Hd as (z & _ & Hd). injection Hd as <-.
  eexists m, _. split; [done|]. split; [done|]. split; [|split].
  - intros k. rewrite !lookup_insert_is_Some. split.
    + intros [<-|[_ [<-|[_ [<-|[_ [<-|[_ ?]]]]]]]]; eauto.
    + intros [->|Hk].
      * do 3 (right; split; [discriminate|]). by left.
      * destruct (decide ("amount" = k)); [by left|right; split; [done|]].
        destruct (decide ("scriptPubKey" = k));
          [by left|right; split; [done|]].
        destruct (decide ("address" = k)); [by left|right; split; [done|]].
        destruct (decide ("outpoint" = k)); [by left|by right].
  - intros k Hk. rewrite !lookup_insert_ne; [done|set_solver..].
  - by rewrite !lookup_insert_ne by discriminate.
Qed.

End Decoders.

Lemma getblockheader_verbose_fields_witness :
  ∃ m', @getblockheader_decode accepting_core true (loads header_wire)
          = Ok (VDict m')
        ∧ (∀ k, is_Some (m' !! k)
                ↔ k ∈ ["confirmations"; "height"; "mediantime";
                       "nextblockhash"; "chainwork"])
        ∧ m' !! "nextblockhash" = Some VNone.
Proof.
  destruct (@getblockheader_verbose_fields accepting_core
              (loads header_wire) _ eq_refl)
    as (m & m' & cw & w & Hr & Hv & Hk & _ & _ & _ & _ & _ & _ & Hn).
  exists m'. split; [by rewrite <- Hv|]. split; [exact Hk|].
  injection Hr as <-. exact Hn.
Defined.

Lemma getinfo_converts_two_fields_witness :
  ∃ m', (@getinfo accepting_core (fresh_proxy [reply info_wire])).1
          = Ok (VDict m')
        ∧ m' !! "blocks" = Some (VInt 7).
Proof.
  destruct (@getinfo_converts_two_fields accepting_core
              (fresh_proxy [reply info_wire]) _ info_wire [] _ _
              eq_refl eq_refl eq_refl)
    as (m' & Hv & _ & Hk & _).
  exists m'. split; [by rewrite <- Hv|].
  by rewrite Hk by discriminate.
Defined.

Lemma signed_and_funded_drop_hex_witness :
  ∃ v, (@fundrawtransaction accepting_core plain_serializer
          (VObject "CTransaction" [VBytes [Byte.x01; Byte.x00]]) false
          (fresh_proxy [reply funded_wire])).1 = Ok v
       ∧ getitem v "hex" = Raise (KeyError "hex").
Proof.
  eexists. split; [reflexivity|].
  refine (proj1 (@signed_and_funded_drop_hex accepting_core
                   plain_serializer
                   (VObject "CTransaction" [VBytes [Byte.x01; Byte.x00]])
                   [] false (fresh_proxy [reply funded_wire]) _
                   funded_wire [] _ eq_refl eq_refl (or_intror eq_refl))).
Defined.

Lemma listunspent_entry_keeps_fields_witness :
  ∃ m', @listunspent_entry accepting_core (loads (unspent_wire lit_0_0005))
          = Ok (VDict m')
        ∧ m' !! "txid" = Some (VStr "00ff").
Proof.
  destruct (@listunspent_entry_keeps_fields accepting_core
              (loads (unspent_wire lit_0_0005)) _ eq_refl)
    as (m & m' & Hr & Hv & _ & _ & Ht & _).
  exists m'. split; [by rewrite <- Hv|].
  injection Hr as <-. by rewrite Ht.
Defined.

Lemma getitem_list_lx (items : list value) (hs : list value) :
  mapR (λ txid, l ← lx txid; Ok (VBytes l)) items = Ok hs →
  Forall2 (λ txid h, ∃ l, lx txid = Ok l ∧ h = VBytes l) items hs.
Proof.
  revert hs. induction items as [|t items IH]; intros hs; cbn.
  - intros [= <-]. constructor.
  - destruct (lx t) as [l|e] eqn:Hl; cbn; [|discriminate].
    destruct (mapR _ items) as [hs'|e]; [|discriminate].
    intros [= <-]. constructor; [by exists l|by apply IH].
Qed.



(** ** The operations on pending operations *)

(** X16. [z_getoperationresult] and [z_getoperationstatus] demand an
    [opid] and then leave it out of the request: called with one, by
    position or by keyword, they post the method with no parameter, so the
    node reports on every operation it knows; called without, they raise
    [TypeError] and post nothing. *)
Theorem z_getoperation_ignores_opid (opid : value) (p : BaseProxy) :
  invoke z_getoperationresult [opid] [] p
    = _call "z_getoperationresult" [] p
  ∧ invoke z_getoperationstatus [opid] [] p
    = _call "z_getoperationstatus" [] p
  ∧ invoke z_getoperationresult [] [("opid", opid)] p
    = _call "z_getoperationresult" [] p
  ∧ invoke z_getoperationstatus [] [("opid", opid)] p
    = _call "z_getoperationstatus" [] p
  ∧ invoke z_getoperationresult [] [] p = (Raise TypeError, p)
  ∧ invoke z_getoperationstatus [] [] p = (Raise TypeError, p).
Proof. repeat split; reflexivity. Qed.

(** ** The configuration file *)

Lemma contains_rev_app (c : ascii) (s t : string) :
  pystr.contains c (String.rev_app s t)
    = pystr.contains c s || pystr.contains c t.
Proof.
  revert t. induction s as [|a s IH]; intros t; cbn; [done|].
  rewrite IH. cbn.
  destruct (Ascii.eqb a c), (pystr.contains c s); reflexivity.
Qed.

Lemma contains_rev (c : ascii) (s : string) :
  pystr.contains c (String.rev s) = pystr.contains c s.
Proof.
  unfold String.rev. rewrite contains_rev_app. cbn. apply orb_false_r.
Qed.

Lemma contains_lstrip (c : ascii) (s : string) :
  pystr.contains c s = false → pystr.contains c (pystr.lstrip s) = false.
Proof.
  induction s as [|a s IH]; cbn; [done|].
  destruct (Ascii.eqb a c) eqn:E; [discriminate|]. intros Hs.
  destruct (pystr.isspace a); [by apply IH|]. cbn. by rewrite E.
Qed.

Lemma contains_strip (c : ascii) (s : string) :
  pystr.contains c s = false → pystr.contains c (pystr.strip s) = false.
Proof.
  intros Hs. unfold pystr.strip, pystr.rstrip.
  rewrite contains_rev. apply contains_lstrip.
  rewrite contains_rev. by apply contains_lstrip.
Qed.

Lemma split_once_parts (c d : ascii) (s l r : string) :
  pystr.split_once c s = Some (l, r) →
  pystr.contains c l = false
  ∧ (pystr.contains d s = false →
     pystr.contains d l = false ∧ pystr.contains d r = false).
Proof.
  revert l. induction s as [|a s IH]; intros l; cbn; [discriminate|].
  destruct (Ascii.eqb a c) eqn:E.
  - intros [= <- <-]. split; [done|]. cbn.
    by destruct (Ascii.eqb a d).
  - destruct (pystr.split_once c s) as [[l' r']|]; [|discriminate].
    intros [= <- <-]. destruct (IH l' eq_refl) as [Hl Hd]. cbn.
    rewrite E. split; [done|].
    destruct (Ascii.eqb a d); [discriminate|]. exact Hd.
Qed.

Lemma split_once_None (c : ascii) (s : string) :
  pystr.split_once c s = None → pystr.contains c s = false.
Proof.
  induction s as [|a s IH]; cbn; [done|].
  destruct (Ascii.eqb a c); [discriminate|].
  destruct (pystr.split_once c s) as [[l r]|]; [discriminate|]. auto.
Qed.

Lemma conf_line_entries (conf : gmap string value) (line : string) :
  map_Forall (λ k v, ∃ s, v = VStr s
                          ∧ pystr.contains "#" s = false
                          ∧ pystr.contains "#" k = false
                          ∧ pystr.contains "=" k = false) conf →
  map_Forall (λ k v, ∃ s, v = VStr s
                          ∧ pystr.contains "#" s = false
                          ∧ pystr.contains "#" k = false
                          ∧ pystr.contains "=" k = false)
             (conf_line conf line).
Proof.
  intros Hconf. unfold conf_line.
  set (line' := if pystr.contains "#" line then pystr.before "#" line
                else line).
  assert (Hline : pystr.contains "#" line' = false).
  { subst line'. destruct (pystr.contains "#" line) eqn:Hc; [|done].
    unfold pystr.before.
    destruct (pystr.split_once "#" line) as [[l r]|] eqn:Hs.
    - by destruct (split_once_parts "#" "#" line l r Hs).
    - apply split_once_None in Hs. congruence. }
  destruct (pystr.split_once "=" line') as [[k v]|] eqn:Hs; [|done].
  destruct (split_once_parts "=" "#" line' k v Hs) as [Hk Hkv].
  destruct (Hkv Hline) as [Hk' Hv'].
  apply map_Forall_insert_2; [|done].
  exists (pystr.strip v). auto using contains_strip.
Qed.

Lemma parsed_conf_entries (lines : list string) :
  map_Forall (λ k v, ∃ s, v = VStr s
                          ∧ pystr.contains "#" s = false
                          ∧ pystr.contains "#" k = false
                          ∧ pystr.contains "=" k = false)
             (parsed_conf lines).
Proof.
  unfold parsed_conf.
  assert (Hinit : map_Forall
    (λ k v, ∃ s, v = VStr s ∧ pystr.contains "#" s = false
                 ∧ pystr.contains "#" k = false
                 ∧ pystr.contains "=" k = false)
    (<["rpcuser" := VStr EmptyString]> (∅ : gmap string value))).
  { apply map_Forall_insert_2; [by exists EmptyString|].
    apply map_Forall_empty. }
  revert Hinit. generalize (<["rpcuser" := VStr EmptyString]>
                              (∅ : gmap string value)).
  induction lines as [|line lines IH]; intros conf Hconf; cbn; [done|].
  apply IH. by apply conf_line_entries.
Qed.

(** X17. No entry read from the configuration file holds the comment
    sign: every value is a string without [#], and every key is free of
    [#] and of [=]. A password written with a [#] in it is therefore cut
    short at the sign. *)
Theorem conf_entries_stop_at_comment (lines : list string) (k : string)
    (v : value) :
  parsed_conf lines !! k = Some v →
  ∃ s, v = VStr s
       ∧ pystr.contains "#" s = false
       ∧ pystr.contains "#" k = false
       ∧ pystr.contains "=" k = false.
Proof. intros Hk. exact (parsed_conf_entries lines k v Hk). Qed.

Lemma conf_entries_stop_at_comment_witness :
  ∃ s, VStr "pass" = VStr s
       ∧ pystr.contains "#" s = false
       ∧ pystr.contains "#" "rpcpassword" = false
       ∧ pystr.contains "=" "rpcpassword" = false.
Proof.
  exact (conf_entries_stop_at_comment
           ["# the node"; "rpcuser = alice"; "rpcpassword=pass#word"]
           "rpcpassword" (VStr "pass") eq_refl).
Defined.

Lemma parsed_conf_rpcuser (lines : list string) :
  is_Some (parsed_conf lines !! "rpcuser").
Proof.
  unfold parsed_conf.
  assert (Hinit : is_Some ((<["rpcuser" := VStr EmptyString]>
                              (∅ : gmap string value)) !! "rpcuser"))
    by (rewrite lookup_insert_eq; eauto).
  revert Hinit. generalize (<["rpcuser" := VStr EmptyString]>
                              (∅ : gmap string value)).
  induction lines as [|line lines IH]; intros conf Hconf; cbn; [done|].
  apply IH. unfold conf_line.
  destruct (pystr.split_once _ _) as [[k v]|]; [|done].
  rewrite lookup_insert_is_Some.
  destruct (decide (pystr.strip k = "rpcuser")); auto.
Qed.


(** ** Amounts below the smallest unit *)

Section Truncation.
Import decimal.

Lemma mul_of_int_small (coin : Z) (d : Decimal) :
  0 < coin → 0 ≤ _int d → _int d * coin < 10 ^ 28 →
  -999999 ≤ _exp d ≤ 0 →
  mul DefaultContext d (of_int coin)
    = Some {| _sign := _sign d; _int := _int d * coin; _exp := _exp d |}.
Proof.
  intros Hcoin Hint Hsmall He. unfold mul, of_int.
  cbn [_sign _int _exp].
  destruct (Z.ltb_spec coin 0); [lia|].
  rewrite xorb_false_r, Z.add_0_r, (Z.abs_eq coin) by lia.
  destruct (Z.eq_dec (_int d * coin) 0) as [Hz|Hnz].
  - unfold _fix. cbn [_sign _int _exp]. rewrite Hz. cbn [Z.eqb].
    do 2 f_equal. unfold Etiny, DefaultContext. cbn [prec Emin Emax]. lia.
  - assert (Hpos : 0 < _int d * coin) by nia.
    destruct (ndigits_spec _ Hpos) as (Hn1 & Hlo & _).
    assert (Hn : ndigits (_int d * coin) - 1 < 28).
    { apply pow10_lt_inv; lia. }
    apply fix_fits; unfold Etiny, Etop, DefaultContext;
      cbn [_int _exp prec Emin Emax]; lia.
Qed.

Lemma to_smallest_unit_truncates (coin : Z) (d : Decimal) :
  0 < coin → 0 ≤ _int d → _int d * coin < 10 ^ 28 →
  -999999 ≤ _exp d ≤ 0 →
  to_smallest_unit coin (VDecimal d)
    = Ok (Z.quot (signed d * coin) (10 ^ (- _exp d))).
Proof.
  intros Hcoin Hint Hsmall He.
  unfold to_smallest_unit, mul_int.
  rewrite mul_of_int_small by done. cbn. f_equal.
  unfold decimal.to_int, signed. cbn [_sign _int _exp].
  pose proof (pow10_pos (- _exp d) ltac:(lia)) as Hp.
  assert (Hnn : 0 ≤ _int d * coin) by nia.
  destruct (Z.leb_spec 0 (_exp d)) as [H0|H0].
  - replace (_exp d) with 0 by lia. cbn [Z.opp]. rewrite Z.pow_0_r.
    rewrite Z.quot_1_r. lia.
  - destruct (_sign d).
    + replace (-1 * _int d * coin) with (- (_int d * coin)) by lia.
      rewrite Z.quot_opp_l by lia.
      rewrite Z.quot_div_nonneg by lia. lia.
    + replace (1 * _int d * coin) with (_int d * coin) by lia.
      rewrite Z.quot_div_nonneg by lia. lia.
Qed.

End Truncation.

(** X19. [getbalance] and [getreceivedbyaddress] cut an amount that is
    no whole number of smallest units towards zero: for a reply with at
    most 999999 decimals whose coefficient times [COIN] stays below
    10^28, the result is the quotient of the amount in smallest units
    truncated, so a negative balance is cut upwards. *)
Theorem balance_truncates_toward_zero `{Core} (account : string)
    (addr : value) (minconf : Z) (p : BaseProxy) (w : wire)
    (d : decimal.Decimal) (rest : list http_response) :
  pending (__conn p) = reply w :: rest →
  loads w = VDecimal d →
  0 < COIN → 0 ≤ decimal._int d → decimal._int d * COIN < 10 ^ 28 →
  -999999 ≤ decimal._exp d ≤ 0 →
  (getbalance (VStr account) (VInt minconf) p).1
    = Ok (Z.quot (signed d * COIN) (10 ^ (- decimal._exp d)))
  ∧ (getreceivedbyaddress addr (VInt minconf) p).1
    = Ok (Z.quot (signed d * COIN) (10 ^ (- decimal._exp d))).
Proof.
  intros Hp Hw Hcoin Hint Hsmall He.
  unfold getbalance, getreceivedbyaddress, mbind, M_bind, lift.
  rewrite !(λ s a Ha, call_reply s a p w rest Ha Hp) by reflexivity.
  rewrite Hw. cbn [fst]. by rewrite to_smallest_unit_truncates.
Qed.

Lemma balance_truncates_toward_zero_witness :
  (@getbalance accepting_core (VStr "*") (VInt 1)
     (fresh_proxy [reply (WNumber lit_minus_19_billionths)])).1 = Ok (-1).
Proof.
  refine (proj1 (@balance_truncates_toward_zero accepting_core "*" VNone 1
            (fresh_proxy [reply (WNumber lit_minus_19_billionths)])
            (WNumber lit_minus_19_billionths)
            (decimal.mkDecimal true 19 (-9)) [] eq_refl eq_refl _ _ _ _));
    cbn; lia.
Defined.
